(** * String analyzer: the analysis function and the natural-language
      filter parser, embedded from [analyzer.py] and [nlp_parser.py].

    Python values are modelled as follows.
    - [str] is a sequence of Unicode code points: [list N].  [len] counts
      code points, indexing and iteration are per code point.
    - [int] is unbounded: [Z].
    - a [dict] that is filled key by key is a [gmap]; a [set] is a [gset].
    - a call that can raise returns a [result].
    - the interpreter's limit on the digits that [int] converts is a type
      class, so that every setting of it is covered.
    The Unicode character database (case mapping and decimal digits outside
    ASCII) is a type class: the code only reaches it through [str.lower],
    the [\d] class of [re] and [int]. *)

From Stdlib Require Import ZArith NArith Ascii String.
From stdpp Require Import gmap strings list fin_maps.

Local Open Scope Z_scope.

(** ** Python strings *)

Abbreviation char := N (only parsing).
Abbreviation str := (list N) (only parsing).

(** A string literal of the source, as code points (the literals of the two
    modules are all ASCII). *)
Definition lit (s : string) : str :=
  List.map N_of_ascii (list_ascii_of_string s).

(** [len(x)] *)
Definition len {A} (l : list A) : Z := Z.of_nat (List.length l).

(** Exceptions the modelled code can raise. *)
Inductive exn := UnicodeEncodeError | TypeError | ValueError.

Inductive result (A : Type) :=
| Ok (a : A)
| Raise (e : exn).
Arguments Ok {A} a.
Arguments Raise {A} e.

#[global] Instance result_ret : MRet result := λ A a, Ok a.
#[global] Instance result_fmap : FMap result := λ A B f m,
  match m with
  | Ok a => Ok (f a)
  | Raise e => Raise e
  end.
#[global] Instance result_bind : MBind result := λ A B f m,
  match m with
  | Ok a => f a
  | Raise e => Raise e
  end.

(** The part of the Unicode character database the code depends on, outside
    the ASCII range. [unicode_lower] is [str.lower] on a string that is not
    pure ASCII (full case mapping, context dependent for sigma);
    [unicode_decimal] gives the value of a decimal digit (category Nd). *)
Class UnicodeData := {
  unicode_lower : str → str;
  unicode_decimal : char → option Z
}.

(** The interpreter's limit on the number of digits of a string that
    [int] converts, [sys.get_int_max_str_digits()]: 4300 unless the
    interpreter was started otherwise, and 0 where the limit is switched
    off or does not exist. The interpreter accepts no limit below 640
    other than 0. The sources never set it. *)
Class Interpreter := {
  int_max_str_digits : Z;
  int_max_str_digits_valid :
    (int_max_str_digits =? 0) || (640 <=? int_max_str_digits) = true
}.

Module PyStr.

Definition is_ascii (c : char) : bool := (c <? 128)%N.

Definition ascii_lower (c : char) : char :=
  if ((65 <=? c) && (c <=? 90))%N then (c + 32)%N else c.

(** [s.lower()]: CPython lowers an ASCII string byte by byte and sends
    any other string through the Unicode case mapping. *)
Definition lower `{UnicodeData} (s : str) : str :=
  if forallb is_ascii s then List.map ascii_lower s else unicode_lower s.

(** [s.startswith(p)] *)
Fixpoint startswith (p s : str) : bool :=
  match p, s with
  | [], _ => true
  | _ :: _, [] => false
  | a :: p', b :: s' => (a =? b)%N && startswith p' s'
  end.

(** [sub in s] *)
Fixpoint contains (sub s : str) : bool :=
  startswith sub s ||
  match s with
  | [] => false
  | _ :: s' => contains sub s'
  end.

(** [s.replace(old, new)] for a non-empty [old]: scan from the left, at
    each occurrence emit [new] and skip the rest of the occurrence
    ([skip] counts the characters still to drop). *)
Fixpoint replace_from (old new : str) (skip : nat) (s : str) : str :=
  match s with
  | [] => []
  | c :: s' =>
      match skip with
      | S k => replace_from old new k s'
      | O =>
          if startswith old s
          then new ++ replace_from old new (List.length old - 1) s'
          else c :: replace_from old new 0 s'
      end
  end.

(** [s.replace(old, new)]; an empty [old] matches before every character
    and at the end. *)
Definition replace (s old new : str) : str :=
  match old with
  | [] => new ++ flat_map (λ c, c :: new) s
  | _ :: _ => replace_from old new 0 s
  end.

(** [c.isspace()] as CPython's [_PyUnicode_IsWhitespace]: the characters
    of bidirectional type WS, B or S, or of category Zs. *)
Definition isspace (c : char) : bool :=
  ((9 <=? c) && (c <=? 13) || (28 <=? c) && (c <=? 32) ||
   (c =? 0x85) || (c =? 0xA0) || (c =? 0x1680) ||
   (0x2000 <=? c) && (c <=? 0x200A) ||
   (c =? 0x2028) || (c =? 0x2029) || (c =? 0x202F) ||
   (c =? 0x205F) || (c =? 0x3000))%N.

(** [s.split()] without separator: skip whitespace, then collect a word
    up to the next whitespace. [cur] is the word being collected, most
    recent character first. *)
Fixpoint split_from (cur : str) (s : str) : list str :=
  match s with
  | [] => match cur with [] => [] | _ :: _ => [rev cur] end
  | c :: s' =>
      if isspace c
      then match cur with
           | [] => split_from [] s'
           | _ :: _ => rev cur :: split_from [] s'
           end
      else split_from (c :: cur) s'
  end.

Definition split (s : str) : list str := split_from [] s.

(** Value of a decimal digit: [Py_UNICODE_TODECIMAL]. *)
Definition decimal_value `{UnicodeData} (c : char) : option Z :=
  if is_ascii c
  then if ((48 <=? c) && (c <=? 57))%N then Some (Z.of_N c - 48) else None
  else unicode_decimal c.

Definition isdecimal `{UnicodeData} (c : char) : bool :=
  bool_decide (is_Some (decimal_value c)).

(** The value of a non-empty string of decimal digits, the only strings
    the parser passes to [int] (lemmas [search_numeral] and [group_digits]
    below): what [int(s)] returns when it returns. Python's [int] is
    unbounded. *)
Definition int `{UnicodeData} (s : str) : Z :=
  foldl (λ n c, 10 * n + default 0 (decimal_value c)) 0 s.

(** [s] has more digits than the interpreter converts; every digit
    counts, leading zeros too. *)
Definition exceeds_limit `{Interpreter} (s : str) : bool :=
  (0 <? int_max_str_digits) && (int_max_str_digits <? len s).

(** The call [int(s)] on a string of digits: above the limit it raises
    [ValueError], otherwise it returns the value of the digits. *)
Definition int_call `{UnicodeData} `{Interpreter} (s : str) : result Z :=
  if exceeds_limit s then Raise ValueError else Ok (int s).

(** [s.encode()]: UTF-8, strict. A surrogate code point has no encoding
    and raises. Numbers above 0x10FFFF are not code points of any [str];
    the model gives them no encoding either. *)
Definition utf8_char (c : char) : option (list Z) :=
  let z := Z.of_N c in
  if z <? 0x80 then Some [z]
  else if z <? 0x800 then
    Some [Z.lor 0xC0 (Z.shiftr z 6); Z.lor 0x80 (Z.land z 0x3F)]
  else if (0xD800 <=? z) && (z <=? 0xDFFF) then None
  else if z <? 0x10000 then
    Some [Z.lor 0xE0 (Z.shiftr z 12);
          Z.lor 0x80 (Z.land (Z.shiftr z 6) 0x3F);
          Z.lor 0x80 (Z.land z 0x3F)]
  else if z <? 0x110000 then
    Some [Z.lor 0xF0 (Z.shiftr z 18);
          Z.lor 0x80 (Z.land (Z.shiftr z 12) 0x3F);
          Z.lor 0x80 (Z.land (Z.shiftr z 6) 0x3F);
          Z.lor 0x80 (Z.land z 0x3F)]
  else None.

Fixpoint encode (s : str) : result (list Z) :=
  match s with
  | [] => Ok []
  | c :: s' =>
      match utf8_char c with
      | None => Raise UnicodeEncodeError
      | Some bs => rest ← encode s'; Ok (bs ++ rest)
      end
  end.

(** The strings [encode] accepts: well-formed Unicode text, that is,
    sequences of scalar values (no lone surrogate). *)
Definition encodable (s : str) : Prop :=
  Forall (λ c, is_Some (utf8_char c)) s.

End PyStr.

(** ** SHA-256 (FIPS 180-4) on byte strings, as [hashlib.sha256]. Bytes are
    integers below 256, words are integers below 2^32. *)
Module Sha256.

Definition wrap (x : Z) : Z := x mod 2 ^ 32.
Definition add (x y : Z) : Z := wrap (x + y).
Definition rotr (n x : Z) : Z :=
  Z.lor (Z.shiftr x n) (wrap (Z.shiftl x (32 - n))).
Definition lnot32 (x : Z) : Z := 2 ^ 32 - 1 - x.

Definition Ch (x y z : Z) := Z.lxor (Z.land x y) (Z.land (lnot32 x) z).
Definition Maj (x y z : Z) :=
  Z.lxor (Z.lxor (Z.land x y) (Z.land x z)) (Z.land y z).
Definition bsig0 x := Z.lxor (Z.lxor (rotr 2 x) (rotr 13 x)) (rotr 22 x).
Definition bsig1 x := Z.lxor (Z.lxor (rotr 6 x) (rotr 11 x)) (rotr 25 x).
Definition ssig0 x := Z.lxor (Z.lxor (rotr 7 x) (rotr 18 x)) (Z.shiftr x 3).
Definition ssig1 x := Z.lxor (Z.lxor (rotr 17 x) (rotr 19 x)) (Z.shiftr x 10).

(** The constants are the leading 32 fractional bits of the square and
    cube roots of the first primes; they are computed here rather than
    tabulated. *)
Fixpoint primes_from (fuel : nat) (n : Z) (found : list Z) (want : nat) : list Z :=
  match fuel, want with
  | _, O => rev found
  | O, _ => rev found
  | S fuel', S want' =>
      if forallb (λ p, negb (n mod p =? 0)) found
      then primes_from fuel' (n + 1) (n :: found) want'
      else primes_from fuel' (n + 1) found want
  end.

Definition primes (k : nat) : list Z := primes_from 400 2 [] k.

(** Integer cube root by bisection on the bits of the result. *)
Fixpoint icbrt_bits (bits : nat) (x r : Z) : Z :=
  match bits with
  | O => r
  | S b =>
      let r' := r + 2 ^ Z.of_nat b in
      icbrt_bits b x (if r' * r' * r' <=? x then r' else r)
  end.

Definition frac_sqrt (p : Z) : Z := wrap (Z.sqrt (p * 2 ^ 64)).
Definition frac_cbrt (p : Z) : Z := wrap (icbrt_bits 40 (p * 2 ^ 96) 0).

Definition H0 : list Z := Eval vm_compute in List.map frac_sqrt (primes 8).
Definition K : list Z := Eval vm_compute in List.map frac_cbrt (primes 64).

(** Padding: a 1 bit, zeros up to 56 mod 64, the bit length on 8 bytes. *)
Definition be_bytes (n : nat) (x : Z) : list Z :=
  List.map (λ i, Z.land (Z.shiftr x (8 * Z.of_nat i)) 0xFF) (rev (seq 0 n)).

Definition pad (msg : list Z) : list Z :=
  let l := len msg in
  let zeros := Z.to_nat ((55 - l) mod 64) in
  msg ++ [0x80] ++ repeat 0 zeros ++ be_bytes 8 (8 * l).

Definition be_word (bs : list Z) : Z :=
  foldl (λ acc b, Z.lor (Z.shiftl acc 8) b) 0 bs.

(** The 16 words of a block, and the 64-word message schedule (most
    recent word first while it is extended). *)
Fixpoint words (n : nat) (bs : list Z) : list Z :=
  match n with
  | O => []
  | S n' => be_word (take 4 bs) :: words n' (drop 4 bs)
  end.

Fixpoint extend (n : nat) (w : list Z) : list Z :=
  match n with
  | O => w
  | S n' =>
      let at_ i := default 0 (w !! i) in
      extend n' (add (add (ssig1 (at_ 1%nat)) (at_ 6%nat))
                     (add (ssig0 (at_ 14%nat)) (at_ 15%nat)) :: w)
  end.

Definition schedule (block : list Z) : list Z :=
  rev (extend 48 (rev (words 16 block))).

Definition round (st : list Z) (kw : Z * Z) : list Z :=
  match st with
  | [a; b; c; d; e; f; g; h] =>
      let t1 := add (add (add (add h (bsig1 e)) (Ch e f g)) (fst kw)) (snd kw) in
      let t2 := add (bsig0 a) (Maj a b c) in
      [add t1 t2; a; b; c; add d t1; e; f; g]
  | _ => st
  end.

Definition compress (h : list Z) (block : list Z) : list Z :=
  zip_with add h (foldl round h (zip K (schedule block))).

Fixpoint blocks (n : nat) (bs : list Z) : list (list Z) :=
  match n with
  | O => []
  | S n' => take 64 bs :: blocks n' (drop 64 bs)
  end.

Definition digest (msg : list Z) : list Z :=
  let p := pad msg in
  let h := foldl compress H0 (blocks (List.length p / 64) p) in
  flat_map (be_bytes 4) h.

Definition hex_digit (d : Z) : char :=
  Z.to_N (if d <? 10 then 48 + d else 87 + d).

(** [hashlib.sha256(bs).hexdigest()]: lowercase hexadecimal. *)
Definition hexdigest (msg : list Z) : str :=
  flat_map (λ b, [hex_digit (Z.shiftr b 4); hex_digit (Z.land b 0xF)])
           (digest msg).

End Sha256.

(** ** The fragment of [re] the parser's patterns use: literals, character
    sets, one-or-more of a set, optional non-capturing groups (all greedy)
    and one capturing group. *)
Module Re.

Inductive cset :=
| Digit                      (* \d *)
| Range (lo hi : char).      (* [lo-hi] *)

Inductive regex :=
| Lit (s : str)
| Set_ (cs : cset)
| Plus (cs : cset)           (* cs+ *)
| Opt (r : regex)            (* (?:r)? *)
| Group (r : regex)          (* (r), group 1 *)
| Seq (r1 r2 : regex).

Definition in_cset `{UnicodeData} (cs : cset) (c : char) : bool :=
  match cs with
  | Digit => PyStr.isdecimal c
  | Range lo hi => ((lo <=? c) && (c <=? hi))%N
  end.

(** Backtracking matcher in continuation-passing style: [k] is what has
    to match after the current position, [g] the text of group 1 so far.
    A greedy operator tries the longer alternative first and falls back
    when the continuation fails. *)
Fixpoint star `{UnicodeData} {R} (cs : cset) (s : str)
    (k : str → option R) : option R :=
  match s with
  | [] => k []
  | c :: s' =>
      if in_cset cs c
      then match star cs s' k with
           | Some x => Some x
           | None => k s
           end
      else k s
  end.

Fixpoint exec `{UnicodeData} {R} (r : regex) (s : str) (g : option str)
    (k : str → option str → option R) : option R :=
  match r with
  | Lit l =>
      if PyStr.startswith l s then k (drop (List.length l) s) g else None
  | Set_ cs =>
      match s with
      | c :: s' => if in_cset cs c then k s' g else None
      | [] => None
      end
  | Plus cs =>
      match s with
      | c :: s' => if in_cset cs c then star cs s' (λ t, k t g) else None
      | [] => None
      end
  | Opt r1 =>
      match exec r1 s g k with
      | Some x => Some x
      | None => k s g
      end
  | Group r1 =>
      exec r1 s g
        (λ t _, k t (Some (take (List.length s - List.length t) s)))
  | Seq r1 r2 => exec r1 s g (λ t g', exec r2 t g' k)
  end.

(** A match object, reduced to what the parser reads from it. *)
Record Match := { group1 : option str }.

Definition match_here `{UnicodeData} (r : regex) (s : str) : option Match :=
  exec r s None (λ _ g, Some {| group1 := g |}).

(** [re.search(r, s)]: the match at the leftmost position that has one. *)
Fixpoint search `{UnicodeData} (r : regex) (s : str) : option Match :=
  match match_here r s with
  | Some m => Some m
  | None =>
      match s with
      | [] => None
      | _ :: s' => search r s'
      end
  end.

(** [m.group(1)]; every pattern below has group 1 on its only path, so a
    match always binds it (lemmas [search_numeral] and
    [letter_match_group]). *)
Definition group (m : Match) : str := default [] (group1 m).

End Re.

(** ** analyzer.py *)
Module Analyzer.

(** The dictionary [analyze_string] returns: a literal with six fixed
    keys, hence a record. *)
Record properties := {
  length : Z;
  is_palindrome : bool;
  unique_characters : Z;
  word_count : Z;
  sha256_hash : str;
  character_frequency_map : gmap N Z
}.

(** The loop that fills [character_frequency_map]. *)
Definition count_chars (value : str) : gmap N Z :=
  foldl (λ m c, <[c := default 0 (m !! c) + 1]> m) ∅ value.

Definition analyze_string `{UnicodeData} (value : str) : result properties :=
  let length := len value in
  let cleaned := PyStr.lower (PyStr.replace value (lit " ") (lit "")) in
  let is_palindrome := bool_decide (cleaned = rev cleaned) in
  let unique_characters := Z.of_nat (size (list_to_set value : gset N)) in
  let word_count := len (PyStr.split value) in
  encoded ← PyStr.encode value;
  let sha256_hash := Sha256.hexdigest encoded in
  let character_frequency_map := count_chars value in
  Ok {| length := length;
        is_palindrome := is_palindrome;
        unique_characters := unique_characters;
        word_count := word_count;
        sha256_hash := sha256_hash;
        character_frequency_map := character_frequency_map |}.

End Analyzer.

(** ** nlp_parser.py *)
Module NlpParser.
Import Re.

(** Values stored in the filter dictionary. *)
Inductive value :=
| VInt (n : Z)
| VBool (b : bool)
| VStr (s : str).

Definition re_longer_than : regex :=
  Seq (Lit (lit "longer than ")) (Group (Plus Digit)).
Definition re_shorter_than : regex :=
  Seq (Lit (lit "shorter than ")) (Group (Plus Digit)).
Definition re_at_least : regex :=
  Seq (Lit (lit "at least ")) (Group (Plus Digit)).
Definition re_at_most : regex :=
  Seq (Lit (lit "at most ")) (Group (Plus Digit)).
(** [contain(?:ing)?(?: the)?(?: letter)? ([a-z])] *)
Definition re_letter : regex :=
  Seq (Lit (lit "contain"))
    (Seq (Opt (Lit (lit "ing")))
      (Seq (Opt (Lit (lit " the")))
        (Seq (Opt (Lit (lit " letter")))
          (Seq (Lit (lit " ")) (Group (Set_ (Range 97 122))))))).

(** The dictionary that [parse_natural_language_query] builds: its
    statements in order, with every [int(...)] replaced by the value of
    the digits. This is what the call returns whenever it returns; the
    call itself, where [int] can raise, is
    [parse_natural_language_query_call] below (lemma
    [parse_call_characterised]). *)
Definition parse_natural_language_query `{UnicodeData} (query : str)
    : gmap string value :=
  let query_lower := PyStr.lower query in
  let filters : gmap string value := ∅ in
  let filters :=
    if PyStr.contains (lit "single word") query_lower
       || PyStr.contains (lit "one word") query_lower
    then <["word_count" := VInt 1]> filters
    else if PyStr.contains (lit "two word") query_lower
            || PyStr.contains (lit "2 word") query_lower
    then <["word_count" := VInt 2]> filters
    else if PyStr.contains (lit "three word") query_lower
            || PyStr.contains (lit "3 word") query_lower
    then <["word_count" := VInt 3]> filters
    else filters in
  let filters :=
    if PyStr.contains (lit "palindrom") query_lower
    then <["is_palindrome" := VBool true]> filters
    else filters in
  let filters :=
    match search re_longer_than query_lower with
    | Some longer_than =>
        <["min_length" := VInt (PyStr.int (group longer_than) + 1)]> filters
    | None => filters
    end in
  let filters :=
    match search re_shorter_than query_lower with
    | Some shorter_than =>
        <["max_length" := VInt (PyStr.int (group shorter_than) - 1)]> filters
    | None => filters
    end in
  let filters :=
    match search re_at_least query_lower with
    | Some at_least =>
        <["min_length" := VInt (PyStr.int (group at_least))]> filters
    | None => filters
    end in
  let filters :=
    match search re_at_most query_lower with
    | Some at_most =>
        <["max_length" := VInt (PyStr.int (group at_most))]> filters
    | None => filters
    end in
  let filters :=
    match search re_letter query_lower with
    | Some letter_match =>
        <["contains_character" := VStr (group letter_match)]> filters
    | None => filters
    end in
  let filters :=
    if PyStr.contains (lit "first vowel") query_lower
    then <["contains_character" := VStr (lit "a")]> filters
    else filters in
  let filters :=
    if PyStr.contains (lit "last vowel") query_lower
    then <["contains_character" := VStr (lit "u")]> filters
    else filters in
  filters.

(** The call [parse_natural_language_query(query)]: the same statements,
    each [int(...)] a call that raises [ValueError] on a numeral above the
    interpreter's digit limit, which ends the function without a
    dictionary. *)
Definition parse_natural_language_query_call `{UnicodeData} `{Interpreter}
    (query : str)
    : result (gmap string value) :=
  let query_lower := PyStr.lower query in
  let filters : gmap string value := ∅ in
  let filters :=
    if PyStr.contains (lit "single word") query_lower
       || PyStr.contains (lit "one word") query_lower
    then <["word_count" := VInt 1]> filters
    else if PyStr.contains (lit "two word") query_lower
            || PyStr.contains (lit "2 word") query_lower
    then <["word_count" := VInt 2]> filters
    else if PyStr.contains (lit "three word") query_lower
            || PyStr.contains (lit "3 word") query_lower
    then <["word_count" := VInt 3]> filters
    else filters in
  let filters :=
    if PyStr.contains (lit "palindrom") query_lower
    then <["is_palindrome" := VBool true]> filters
    else filters in
  filters ←
    match search re_longer_than query_lower with
    | Some longer_than =>
        n ← PyStr.int_call (group longer_than);
        Ok (<["min_length" := VInt (n + 1)]> filters)
    | None => Ok filters
    end;
  filters ←
    match search re_shorter_than query_lower with
    | Some shorter_than =>
        n ← PyStr.int_call (group shorter_than);
        Ok (<["max_length" := VInt (n - 1)]> filters)
    | None => Ok filters
    end;
  filters ←
    match search re_at_least query_lower with
    | Some at_least =>
        n ← PyStr.int_call (group at_least);
        Ok (<["min_length" := VInt n]> filters)
    | None => Ok filters
    end;
  filters ←
    match search re_at_most query_lower with
    | Some at_most =>
        n ← PyStr.int_call (group at_most);
        Ok (<["max_length" := VInt n]> filters)
    | None => Ok filters
    end;
  let filters :=
    match search re_letter query_lower with
    | Some letter_match =>
        <["contains_character" := VStr (group letter_match)]> filters
    | None => filters
    end in
  let filters :=
    if PyStr.contains (lit "first vowel") query_lower
    then <["contains_character" := VStr (lit "a")]> filters
    else filters in
  let filters :=
    if PyStr.contains (lit "last vowel") query_lower
    then <["contains_character" := VStr (lit "u")]> filters
    else filters in
  Ok filters.

(** [a > b] on the values a filter can hold: numbers compare by value
    ([bool] is a subtype of [int]), strings by code points, and a string
    against a number raises. *)
Fixpoint str_gt (a b : str) : bool :=
  match a, b with
  | [], _ => false
  | _ :: _, [] => true
  | x :: a', y :: b' => (y <? x)%N || (x =? y)%N && str_gt a' b'
  end.

Definition py_gt (a b : value) : result bool :=
  match a, b with
  | VInt x, VInt y => Ok (y <? x)
  | VInt x, VBool y => Ok (Z.b2z y <? x)
  | VBool x, VInt y => Ok (y <? Z.b2z x)
  | VBool x, VBool y => Ok (Z.b2z y <? Z.b2z x)
  | VStr x, VStr y => Ok (str_gt x y)
  | _, _ => Raise TypeError
  end.

Definition conflict_message : str :=
  lit "Conflicting length constraints: min_length cannot be greater than max_length".

(** [None] is Python's [None]: no conflict. *)
Definition validate_parsed_filters (filters : gmap string value)
    : result (option str) :=
  match filters !! "min_length", filters !! "max_length" with
  | Some lo, Some hi =>
      gt ← py_gt lo hi;
      if gt : bool then Ok (Some conflict_message) else Ok None
  | _, _ => Ok None
  end.

End NlpParser.

(** ** What the properties are compared with: the descriptions of the
    design document, stated independently of the code above. *)
Module Spec.

(** The string with every ASCII space removed. *)
Definition without_spaces (s : str) : str :=
  List.filter (λ c, negb (c =? 32)%N) s.

(** Number of occurrences of [c] in [s]. *)
Definition occurrences (c : char) (s : str) : Z :=
  len (List.filter (λ x, (x =? c)%N) s).

(** [sum(d.values())] *)
Definition sum_values (m : gmap N Z) : Z :=
  map_fold (λ _ v acc, v + acc) 0 m.

(** [l] lists the distinct characters of [s], each once. *)
Definition enumerates (l s : str) : Prop :=
  NoDup l ∧ ∀ c, c ∈ l ↔ c ∈ s.

(** The first character of [s], if any, is whitespace. *)
Definition at_boundary (s : str) : Prop :=
  match s with
  | [] => True
  | c :: _ => PyStr.isspace c = true
  end.

(** [runs s ws]: [ws] are the maximal runs of non-whitespace characters
    of [s], from left to right. Each run is non-empty, free of
    whitespace, preceded only by whitespace since the previous run, and
    followed by whitespace or the end of the string. *)
Inductive runs : str → list str → Prop :=
| runs_blank s :
    Forall (λ c, PyStr.isspace c = true) s → runs s []
| runs_word pre w rest ws :
    Forall (λ c, PyStr.isspace c = true) pre →
    w ≠ [] →
    Forall (λ c, PyStr.isspace c = false) w →
    at_boundary rest →
    runs rest ws →
    runs (pre ++ w ++ rest) (w :: ws).

(** [sub] occurs in [t] as a contiguous substring. *)
Definition occurs (sub t : str) : Prop :=
  ∃ pre post, t = pre ++ sub ++ post.

(** The longest prefix of decimal digits. *)
Fixpoint leading_digits `{UnicodeData} (s : str) : str :=
  match s with
  | c :: s' => if PyStr.isdecimal c then c :: leading_digits s' else []
  | [] => []
  end.

(** The numeral that follows the leftmost occurrence of [phrase] that is
    followed by a digit: the whole run of digits there. *)
Fixpoint numeral_after `{UnicodeData} (phrase t : str) : option str :=
  match (if PyStr.startswith phrase t
         then leading_digits (drop (List.length phrase) t) else []) with
  | (_ :: _) as ds => Some ds
  | [] =>
      match t with
      | [] => None
      | _ :: t' => numeral_after phrase t'
      end
  end.

(** A numeral that one of the four length patterns matches in [t] has
    more digits than [int] converts. *)
Definition too_long `{UnicodeData} `{Interpreter} (phrase t : str) : bool :=
  match numeral_after phrase t with
  | Some ds => PyStr.exceeds_limit ds
  | None => false
  end.

Definition overlong_numeral `{UnicodeData} `{Interpreter} (t : str) : bool :=
  too_long (lit "longer than ") t || too_long (lit "shorter than ") t
  || too_long (lit "at least ") t || too_long (lit "at most ") t.

(** A filter set: the five optional constraints, each of its type. *)
Definition well_typed (k : string) (v : NlpParser.value) : bool :=
  match v with
  | NlpParser.VInt _ =>
      bool_decide (k = "word_count" ∨ k = "min_length" ∨ k = "max_length")
  | NlpParser.VBool _ => bool_decide (k = "is_palindrome")
  | NlpParser.VStr s =>
      bool_decide (k = "contains_character" ∧ List.length s = 1%nat)
  end.

Definition is_filter_set (f : gmap string NlpParser.value) : Prop :=
  map_Forall (λ k v, well_typed k v = true) f.

End Spec.

(** A small excerpt of the character database, to run the model on
    concrete inputs: the Latin-1 capitals and the Arabic-Indic digits. *)
(** The interpreter as it ships: at most 4300 digits. *)
Definition default_interpreter : Interpreter :=
  {| int_max_str_digits := 4300; int_max_str_digits_valid := eq_refl |}.

Definition sample_unicode : UnicodeData := {|
  unicode_lower := List.map (λ c,
    if ((65 <=? c) && (c <=? 90) ||
        (0xC0 <=? c) && (c <=? 0xDE) && negb (c =? 0xD7))%N
    then (c + 32)%N else c);
  unicode_decimal := λ c,
    if ((0x660 <=? c) && (c <=? 0x669))%N then Some (Z.of_N c - 0x660) else None
|}.


(** ** schemas.py *)
Module Schemas.

(** [s.lstrip()] and [s.strip()] without argument: whitespace, in the
    sense of [isspace], is dropped at the left end, at both ends. *)
Fixpoint lstrip (s : str) : str :=
  match s with
  | [] => []
  | c :: s' => if PyStr.isspace c then lstrip s' else s
  end.

Definition strip (s : str) : str := rev (lstrip (rev (lstrip s))).

Inductive ValueError := value_error (msg : str).

Inductive checked (A : Type) :=
| Accept (a : A)
| Reject (e : ValueError).
Arguments Accept {A} a.
Arguments Reject {A} e.

(** The validator of [StringInput.value]: [not v or not v.strip()]
    rejects, anything else is returned as it came. *)
Definition value_must_not_be_empty (v : str) : checked str :=
  if bool_decide (v = []) || bool_decide (strip v = [])
  then Reject (value_error (lit "value cannot be empty"))
  else Accept v.

(** [StringResponse]; its [properties] are a [StringProperties], which has
    the six fields of the analyzer's dictionary. *)
Module StringResponse.
Record t := {
  id : str;
  value : str;
  properties : Analyzer.properties;
  created_at : str
}.
End StringResponse.

Module StringListResponse.
Record t := {
  data : list StringResponse.t;
  count : Z;
  filters_applied : option (gmap string NlpParser.value)
}.
End StringListResponse.

(** [interpreted_query] is the dictionary with the keys [original] and
    [parsed_filters]. *)
Module NaturalLanguageResponse.
Record t := {
  data : list StringResponse.t;
  count : Z;
  original : str;
  parsed_filters : gmap string NlpParser.value
}.
End NaturalLanguageResponse.

End Schemas.

(** Timestamps: [datetime.now(timezone.utc)] produces one, [isoformat]
    prints it. *)
Class DateTime := {
  datetime : Type;
  isoformat : datetime → str
}.

(** ** models.py *)
Module Models.

(** A row of the table [analyzed_strings]. *)
Record AnalyzedString `{DateTime} := {
  id : str;
  value : str;
  length : Z;
  is_palindrome : bool;
  unique_characters : Z;
  word_count : Z;
  sha256_hash : str;
  character_frequency_map : gmap N Z;
  created_at : datetime
}.

Definition to_dict `{DateTime} (self : AnalyzedString) : Schemas.StringResponse.t :=
  {| Schemas.StringResponse.id := id self;
     Schemas.StringResponse.value := value self;
     Schemas.StringResponse.properties :=
       {| Analyzer.length := length self;
          Analyzer.is_palindrome := is_palindrome self;
          Analyzer.unique_characters := unique_characters self;
          Analyzer.word_count := word_count self;
          Analyzer.sha256_hash := sha256_hash self;
          Analyzer.character_frequency_map := character_frequency_map self |};
     Schemas.StringResponse.created_at := isoformat (created_at self) |}.

End Models.

(** ** The table behind the session *)
Module Db.

(** Modelled from the spec: database.py (the engine and [get_db]) is not
    part of the sources; the design document treats the store as an
    opaque keyed store of records. The model is the table that models.py
    declares: a sequence of rows in which [id] is the primary key and
    [value] is unique; a commit that would break either constraint fails
    and leaves the table as it was. A query is sent to the engine when
    its rows are asked for, with the integers it compares columns with
    as parameters; the engine's driver binds the integers of some range
    ([bindable]; 64-bit signed integers for SQLite) and raises on any
    other, which makes the statement fail. *)
Definition table `{DateTime} := list Models.AnalyzedString.

Class Driver := {
  bindable : Z → bool
}.

(** [db.query(AnalyzedString)] with the filters added so far: the rows
    it selects, and the integer parameters of its statement. *)
Record Query `{DateTime} := {
  selected : table;
  params : list Z
}.

Definition query `{DateTime} (db : table) : Query :=
  {| selected := db; params := [] |}.

(** [q.filter(col == b)] for a Boolean column. *)
Definition filter_bool `{DateTime} (col : Models.AnalyzedString → bool)
    (b : bool) (q : Query) : Query :=
  {| selected := List.filter (λ s, Bool.eqb (col s) b) (selected q);
     params := params q |}.

(** [q.filter(col >= n)], [q.filter(col <= n)], [q.filter(col == n)] for
    an integer column; [test] is the comparison. *)
Definition filter_int `{DateTime} (test : Z → Z → bool)
    (col : Models.AnalyzedString → Z) (n : Z) (q : Query) : Query :=
  {| selected := List.filter (λ s, test (col s) n) (selected q);
     params := params q ++ [n] |}.

(** [q.all()]: the selected rows, unless the driver refuses a
    parameter. *)
Definition all `{DateTime} `{Driver} (q : Query) : option table :=
  if forallb bindable (params q) then Some (selected q) else None.

(** [db.query(AnalyzedString).filter(AnalyzedString.value == v).first()] *)
Definition first_by_value `{DateTime} (db : table) (v : str)
    : option Models.AnalyzedString :=
  List.find (λ r, bool_decide (Models.value r = v)) db.

(** [db.add(row); db.commit()] *)
Definition insert `{DateTime} (db : table) (row : Models.AnalyzedString)
    : option table :=
  if existsb (λ r, bool_decide (Models.id r = Models.id row)
                   || bool_decide (Models.value r = Models.value row)) db
  then None
  else Some (db ++ [row]).

(** [db.delete(row); db.commit()]: the row goes by its primary key. *)
Definition delete `{DateTime} (db : table) (row : Models.AnalyzedString) : table :=
  List.filter (λ r, negb (bool_decide (Models.id r = Models.id row))) db.

End Db.

(** ** main.py *)
Module Main.
Import Schemas.

(** What an [except Exception as e] can catch in the handlers: an
    exception of the analyzer or the parser, a commit that breaks a
    constraint, a statement that fails in the driver. *)
Inductive exception :=
| AnalyzerError (e : exn)
| IntegrityError
| QueryError.

(** The [detail] of an [HTTPException]: a literal, or a literal followed
    by [str(e)]. *)
Inductive detail :=
| Text (s : str)
| TextAndError (s : str) (e : exception).

Record HTTPException := { status_code : Z; detail_of : detail }.

Inductive response (A : Type) :=
| Respond (body : A)
| Abort (e : HTTPException).
Arguments Respond {A} body.
Arguments Abort {A} e.

(** [POST /strings]. [now] is the time at which the row is written. *)
Definition create_string `{UnicodeData} `{DateTime} (now : datetime)
    (string_input_value : str) (db : Db.table)
    : response StringResponse.t * Db.table :=
  let value := string_input_value in
  match Db.first_by_value db value with
  | Some existing =>
      (Abort {| status_code := 409;
                detail_of := Text (lit "String already exists in the system") |},
       db)
  | None =>
      match Analyzer.analyze_string value with
      | Raise e =>
          (Abort {| status_code := 500;
                    detail_of := TextAndError (lit "Internal server error: ")
                                   (AnalyzerError e) |},
           db)
      | Ok properties =>
          let db_string :=
            {| Models.id := Analyzer.sha256_hash properties;
               Models.value := value;
               Models.length := Analyzer.length properties;
               Models.is_palindrome := Analyzer.is_palindrome properties;
               Models.unique_characters := Analyzer.unique_characters properties;
               Models.word_count := Analyzer.word_count properties;
               Models.sha256_hash := Analyzer.sha256_hash properties;
               Models.character_frequency_map :=
                 Analyzer.character_frequency_map properties;
               Models.created_at := now |} in
          match Db.insert db db_string with
          | None =>
              (Abort {| status_code := 500;
                        detail_of := TextAndError (lit "Internal server error: ")
                                       IntegrityError |},
               db)
          | Some db' => (Respond (Models.to_dict db_string), db')
          end
      end
  end.

(** [GET /strings/{string_value}] *)
Definition get_string `{DateTime} (string_value : str) (db : Db.table)
    : response StringResponse.t :=
  match Db.first_by_value db string_value with
  | None =>
      Abort {| status_code := 404;
               detail_of := Text (lit "String does not exist in the system") |}
  | Some db_string => Respond (Models.to_dict db_string)
  end.

(** The answer of the [except Exception as e] branch of
    [get_all_strings]. *)
Definition invalid_query (e : exception) : HTTPException :=
  {| status_code := 400;
     detail_of := TextAndError (lit "Invalid query parameters: ") e |}.

(** [GET /strings] with its five optional parameters. The body is one
    [try]; what can raise in it is [query.all()], and the [except]
    branch turns that into a 400. *)
Definition get_all_strings `{DateTime} `{Db.Driver}
    (is_palindrome : option bool) (min_length max_length word_count : option Z)
    (contains_character : option str) (db : Db.table)
    : response StringListResponse.t :=
  let query := Db.query db in
  let filters_applied : gmap string NlpParser.value := ∅ in
  let '(query, filters_applied) :=
    match is_palindrome with
    | Some b =>
        (Db.filter_bool Models.is_palindrome b query,
         <["is_palindrome" := NlpParser.VBool b]> filters_applied)
    | None => (query, filters_applied)
    end in
  let '(query, filters_applied) :=
    match min_length with
    | Some n =>
        (Db.filter_int (λ x n, n <=? x) Models.length n query,
         <["min_length" := NlpParser.VInt n]> filters_applied)
    | None => (query, filters_applied)
    end in
  let '(query, filters_applied) :=
    match max_length with
    | Some n =>
        (Db.filter_int Z.leb Models.length n query,
         <["max_length" := NlpParser.VInt n]> filters_applied)
    | None => (query, filters_applied)
    end in
  let '(query, filters_applied) :=
    match word_count with
    | Some n =>
        (Db.filter_int Z.eqb Models.word_count n query,
         <["word_count" := NlpParser.VInt n]> filters_applied)
    | None => (query, filters_applied)
    end in
  match contains_character with
  | Some c =>
      match Db.all query with
      | None => Abort (invalid_query QueryError)
      | Some all_strings =>
          let filtered_strings :=
            List.filter (λ s, PyStr.contains c (Models.value s)) all_strings in
          let filters_applied :=
            <["contains_character" := NlpParser.VStr c]> filters_applied in
          Respond {| StringListResponse.data :=
                       List.map Models.to_dict filtered_strings;
                     StringListResponse.count := len filtered_strings;
                     StringListResponse.filters_applied := Some filters_applied |}
      end
  | None =>
      match Db.all query with
      | None => Abort (invalid_query QueryError)
      | Some results =>
          Respond {| StringListResponse.data := List.map Models.to_dict results;
                     StringListResponse.count := len results;
                     StringListResponse.filters_applied :=
                       if bool_decide (filters_applied = ∅) then None
                       else Some filters_applied |}
      end
  end.

(** A column compared with a parsed value of another type makes the
    query fail; the parser never produces one (lemma
    [parse_is_filter_set]). *)
Definition where_bool `{DateTime} (col : Models.AnalyzedString → bool)
    (v : NlpParser.value) (q : Db.Query) : option Db.Query :=
  match v with
  | NlpParser.VBool b => Some (Db.filter_bool col b q)
  | _ => None
  end.

Definition where_int `{DateTime} (test : Z → Z → bool)
    (col : Models.AnalyzedString → Z) (v : NlpParser.value) (q : Db.Query)
    : option Db.Query :=
  match v with
  | NlpParser.VInt n => Some (Db.filter_int test col n q)
  | _ => None
  end.

Definition bad_request (e : exception) : HTTPException :=
  {| status_code := 400;
     detail_of := TextAndError (lit "Unable to parse natural language query: ") e |}.

(** [GET /strings/filter-by-natural-language]. The body is one [try]:
    an [HTTPException] raised in it passes through, any other exception,
    of the parser, the validator or [db_query.all()], becomes a 400. *)
Definition filter_by_natural_language `{UnicodeData} `{Interpreter} `{DateTime}
    `{Db.Driver} (query : str) (db : Db.table)
    : response NaturalLanguageResponse.t :=
  match NlpParser.parse_natural_language_query_call query with
  | Raise e => Abort (bad_request (AnalyzerError e))
  | Ok parsed_filters =>
  if bool_decide (parsed_filters = ∅)
  then Abort {| status_code := 400;
                detail_of := Text (lit "Unable to parse natural language query") |}
  else
  match NlpParser.validate_parsed_filters parsed_filters with
  | Raise e => Abort (bad_request (AnalyzerError e))
  | Ok (Some ((_ :: _) as validation_error)) =>
      Abort {| status_code := 422;
               detail_of := Text (lit "Query parsed but resulted in conflicting filters: "
                                  ++ validation_error) |}
  | Ok _ =>
      let db_query := Some (Db.query db) in
      let db_query :=
        match parsed_filters !! "is_palindrome" with
        | Some v => db_query ≫= where_bool Models.is_palindrome v
        | None => db_query
        end in
      let db_query :=
        match parsed_filters !! "min_length" with
        | Some v => db_query ≫= where_int (λ x n, n <=? x) Models.length v
        | None => db_query
        end in
      let db_query :=
        match parsed_filters !! "max_length" with
        | Some v => db_query ≫= where_int Z.leb Models.length v
        | None => db_query
        end in
      let db_query :=
        match parsed_filters !! "word_count" with
        | Some v => db_query ≫= where_int Z.eqb Models.word_count v
        | None => db_query
        end in
      match db_query ≫= Db.all with
      | None => Abort (bad_request QueryError)
      | Some results =>
          let results :=
            match parsed_filters !! "contains_character" with
            | Some (NlpParser.VStr char) =>
                Some (List.filter (λ s, PyStr.contains char (Models.value s)) results)
            | Some _ => None
            | None => Some results
            end in
          match results with
          | None => Abort (bad_request (AnalyzerError TypeError))
          | Some results =>
              Respond {| NaturalLanguageResponse.data := List.map Models.to_dict results;
                         NaturalLanguageResponse.count := len results;
                         NaturalLanguageResponse.original := query;
                         NaturalLanguageResponse.parsed_filters := parsed_filters |}
          end
      end
  end
  end.

(** [DELETE /strings/{string_value}]; the body of a 204 is empty. *)
Definition delete_string `{DateTime} (string_value : str) (db : Db.table)
    : response unit * Db.table :=
  match Db.first_by_value db string_value with
  | None =>
      (Abort {| status_code := 404;
                detail_of := Text (lit "String does not exist in the system") |},
       db)
  | Some db_string => (Respond (), Db.delete db db_string)
  end.

(** *** The routes, in the order of their decorators *)

Inductive method := GET | POST | DELETE.

Inductive endpoint :=
| Root
| CreateString
| GetString (string_value : str)
| GetAllStrings
| FilterByNaturalLanguage
| DeleteString (string_value : str)
| HealthCheck.

(** A path parameter [{name}] matches one non-empty segment: [[^/]+]. *)
Definition segment (s : str) : bool :=
  negb (bool_decide (s = [])) && forallb (λ c, negb (c =? 47)%N) s.

(** The path [/strings/{string_value}]: the parameter, when it matches. *)
Definition strings_param (path : str) : option str :=
  if PyStr.startswith (lit "/strings/") path
     && segment (drop (List.length (lit "/strings/")) path)
  then Some (drop (List.length (lit "/strings/")) path)
  else None.

(** One route: its method, and the endpoint a path is bound to. *)
Definition routes : list (method * (str → option endpoint)) :=
  [ (GET, λ p, if bool_decide (p = lit "/") then Some Root else None);
    (POST, λ p, if bool_decide (p = lit "/strings") then Some CreateString else None);
    (GET, λ p, GetString <$> strings_param p);
    (GET, λ p, if bool_decide (p = lit "/strings") then Some GetAllStrings else None);
    (GET, λ p, if bool_decide (p = lit "/strings/filter-by-natural-language")
               then Some FilterByNaturalLanguage else None);
    (DELETE, λ p, DeleteString <$> strings_param p);
    (GET, λ p, if bool_decide (p = lit "/health") then Some HealthCheck else None) ].

Definition method_eqb (a b : method) : bool :=
  match a, b with
  | GET, GET | POST, POST | DELETE, DELETE => true
  | _, _ => false
  end.

(** The router takes the first route, in order, whose path and method
    both match. *)
Fixpoint first_match (rs : list (method * (str → option endpoint)))
    (m : method) (path : str) : option endpoint :=
  match rs with
  | [] => None
  | (m', bind_path) :: rs' =>
      match (if method_eqb m m' then bind_path path else None) with
      | Some e => Some e
      | None => first_match rs' m path
      end
  end.

Definition dispatch (m : method) (path : str) : option endpoint :=
  first_match routes m path.

End Main.

(** ** What the service is compared with *)
Module ServiceSpec.

(** The row that a successful analysis of [v] stores. *)
Definition row_of `{DateTime} (v : str) (p : Analyzer.properties)
    (now : datetime) : Models.AnalyzedString :=
  {| Models.id := Analyzer.sha256_hash p;
     Models.value := v;
     Models.length := Analyzer.length p;
     Models.is_palindrome := Analyzer.is_palindrome p;
     Models.unique_characters := Analyzer.unique_characters p;
     Models.word_count := Analyzer.word_count p;
     Models.sha256_hash := Analyzer.sha256_hash p;
     Models.character_frequency_map := Analyzer.character_frequency_map p;
     Models.created_at := now |}.

(** A table is consistent when no value and no key is stored twice and
    every row holds the analysis of its own value. *)
Definition consistent `{UnicodeData} `{DateTime} (db : Db.table) : Prop :=
  NoDup (List.map Models.value db)
  ∧ NoDup (List.map Models.id db)
  ∧ Forall (λ row, ∃ p, Analyzer.analyze_string (Models.value row) = Ok p
                        ∧ row = row_of (Models.value row) p (Models.created_at row)) db.

(** A row satisfies the five optional constraints. *)
Definition satisfies `{DateTime}
    (is_palindrome : option bool) (min_length max_length word_count : option Z)
    (contains_character : option str) (row : Models.AnalyzedString) : bool :=
  from_option (Bool.eqb (Models.is_palindrome row)) true is_palindrome
  && from_option (λ n, n <=? Models.length row) true min_length
  && from_option (λ n, Models.length row <=? n) true max_length
  && from_option (λ n, Models.word_count row =? n) true word_count
  && from_option (λ c, PyStr.contains c (Models.value row)) true contains_character.

(** The driver can bind every integer among the constraints. *)
Definition binds `{Db.Driver} (min_length max_length word_count : option Z)
    : bool :=
  from_option Db.bindable true min_length
  && from_option Db.bindable true max_length
  && from_option Db.bindable true word_count.

(** The constraints a parsed filter dictionary stands for. *)
Definition bool_of (v : option NlpParser.value) : option bool :=
  match v with Some (NlpParser.VBool b) => Some b | _ => None end.
Definition int_of (v : option NlpParser.value) : option Z :=
  match v with Some (NlpParser.VInt n) => Some n | _ => None end.
Definition str_of (v : option NlpParser.value) : option str :=
  match v with Some (NlpParser.VStr s) => Some s | _ => None end.

End ServiceSpec.

(** A clock that stands still, for running the model. *)
Definition sample_clock : DateTime := {|
  datetime := unit;
  isoformat := λ _, lit "2025-01-01T00:00:00+00:00"
|}.

(** The driver of SQLite: integers of 64 bits, signed. *)
Definition sqlite_driver : Db.Driver := {|
  Db.bindable := λ n, (-2^63 <=? n) && (n <? 2^63)
|}.
(** * Properties of the analyzer *)

Section AnalyzerFacts.
Context `{UnicodeData}.
Import Analyzer.

(** [encode] returns exactly on the strings without surrogates. *)
Lemma encode_returns (s : str) :
  PyStr.encodable s → ∃ bs, PyStr.encode s = Ok bs.
Proof.
  induction 1 as [|c s [bs Hc] _ [rest IH]]; simpl.
  - by eexists.
  - rewrite Hc, IH. by eexists.
Qed.

Lemma encode_raises (s : str) :
  ¬ PyStr.encodable s → PyStr.encode s = Raise UnicodeEncodeError.
Proof.
  induction s as [|c s IH]; intros Hne; simpl.
  - destruct Hne. constructor.
  - destruct (PyStr.utf8_char c) as [bs|] eqn:Hc; [|done].
    rewrite IH; [done|].
    intros Hs. apply Hne. constructor; [by rewrite Hc|done].
Qed.

(** On an encodable string [analyze_string] returns, and every field is
    the value of the corresponding statement of the source. *)
Lemma analyze_string_returns (s : str) :
  PyStr.encodable s →
  ∃ r, analyze_string s = Ok r
    ∧ length r = len s
    ∧ is_palindrome r =
        bool_decide (PyStr.lower (PyStr.replace s (lit " ") (lit ""))
                     = rev (PyStr.lower (PyStr.replace s (lit " ") (lit ""))))
    ∧ unique_characters r = Z.of_nat (size (list_to_set s : gset N))
    ∧ word_count r = len (PyStr.split s)
    ∧ character_frequency_map r = count_chars s
    ∧ ∃ bs, PyStr.encode s = Ok bs ∧ sha256_hash r = Sha256.hexdigest bs.
Proof.
  intros [bs Hbs]%encode_returns. unfold analyze_string. rewrite Hbs.
  eexists. split; [reflexivity|]. simpl. repeat split; eauto.
Qed.

Lemma analyze_string_raises (s : str) :
  ¬ PyStr.encodable s → analyze_string s = Raise UnicodeEncodeError.
Proof.
  intros Hs. unfold analyze_string. by rewrite (encode_raises s Hs).
Qed.

(** ** Palindrome check *)

Lemma replace_single_by_empty (x : char) (s : str) :
  PyStr.replace_from [x] [] 0 s = List.filter (λ c, negb (c =? x)%N) s.
Proof.
  induction s as [|c s IH]; [done|].
  cbn [PyStr.replace_from PyStr.startswith List.filter List.length Nat.sub app].
  rewrite andb_true_r, (N.eqb_sym x c).
  destruct (c =? x)%N; cbn [negb]; by rewrite IH.
Qed.

Lemma replace_space (s : str) :
  PyStr.replace s (lit " ") (lit "") = Spec.without_spaces s.
Proof. apply (replace_single_by_empty 32%N). Qed.

(** ** Character counts *)

Lemma occurrences_cons (c x : char) (s : str) :
  Spec.occurrences c (x :: s) =
  (if decide (x = c) then 1 else 0) + Spec.occurrences c s.
Proof.
  unfold Spec.occurrences, len. simpl.
  destruct (decide (x = c)) as [->|Hne].
  - rewrite N.eqb_refl. simpl. lia.
  - apply N.eqb_neq in Hne. rewrite Hne. lia.
Qed.

Lemma occurrences_nonneg (c : char) (s : str) : 0 ≤ Spec.occurrences c s.
Proof. unfold Spec.occurrences, len. lia. Qed.

Lemma occurrences_pos (c : char) (s : str) :
  c ∈ s ↔ 0 < Spec.occurrences c s.
Proof.
  induction s as [|x s IH].
  - rewrite elem_of_nil. unfold Spec.occurrences, len. simpl. lia.
  - rewrite occurrences_cons, elem_of_cons, IH.
    pose proof (occurrences_nonneg c s).
    destruct (decide (x = c)) as [->|Hne].
    + split; [lia | by left].
    + split; [intros [->|?]; [done|lia] | right; lia].
Qed.

(** The loop invariant of the frequency loop, for any starting map. *)
Lemma count_loop_lookup (m : gmap N Z) (s : str) (c : char) :
  foldl (λ m c, <[c := default 0 (m !! c) + 1]> m) m s !! c =
  if decide (Spec.occurrences c s = 0) then m !! c
  else Some (default 0 (m !! c) + Spec.occurrences c s).
Proof.
  revert m. induction s as [|x s IH]; intros m.
  - simpl. destruct (decide (Spec.occurrences c [] = 0)) as [|Hne]; [done|].
    destruct Hne. reflexivity.
  - simpl foldl. rewrite IH, occurrences_cons.
    pose proof (occurrences_nonneg c s).
    destruct (decide (x = c)) as [->|Hne].
    + rewrite lookup_insert_eq. simpl.
      destruct (decide (1 + Spec.occurrences c s = 0)); [lia|].
      destruct (decide (Spec.occurrences c s = 0)) as [->|]; f_equal; lia.
    + rewrite lookup_insert_ne by done. rewrite Z.add_0_l.
      destruct (decide (Spec.occurrences c s = 0)); done.
Qed.

Lemma count_chars_lookup (s : str) (c : char) :
  count_chars s !! c =
  if decide (c ∈ s) then Some (Spec.occurrences c s) else None.
Proof.
  unfold count_chars. rewrite count_loop_lookup, lookup_empty. simpl.
  pose proof (occurrences_pos c s) as Hpos.
  destruct (decide (c ∈ s)) as [Hin|Hin], (decide (Spec.occurrences c s = 0)) as [Hz|Hz];
    try done.
  - apply Hpos in Hin. lia.
  - destruct Hin. apply Hpos. pose proof (occurrences_nonneg c s). lia.
Qed.

Lemma count_chars_dom (s : str) : dom (count_chars s) = list_to_set s.
Proof.
  apply set_eq. intros c.
  rewrite elem_of_dom, count_chars_lookup, elem_of_list_to_set.
  destruct (decide (c ∈ s)); split; done.
Qed.

Lemma sum_values_step (m : gmap N Z) (c : char) :
  Spec.sum_values (<[c := default 0 (m !! c) + 1]> m) = Spec.sum_values m + 1.
Proof.
  unfold Spec.sum_values.
  destruct (m !! c) as [v|] eqn:Hc; simpl.
  - rewrite <- insert_delete_eq.
    rewrite map_fold_insert_L; [|intros; lia|by rewrite lookup_delete_eq].
    rewrite (map_fold_delete_L _ _ c v m); [lia|intros; lia|done].
  - rewrite map_fold_insert_L; [lia|intros; lia|done].
Qed.

Lemma sum_values_loop (m : gmap N Z) (s : str) :
  Spec.sum_values (foldl (λ m c, <[c := default 0 (m !! c) + 1]> m) m s)
  = Spec.sum_values m + len s.
Proof.
  revert m. induction s as [|x s IH]; intros m.
  - unfold len. simpl. lia.
  - simpl foldl. rewrite IH, sum_values_step. unfold len.
    rewrite length_cons. lia.
Qed.

Lemma size_list_to_set_enumerates (l s : str) :
  Spec.enumerates l s → size (list_to_set s : gset N) = List.length l.
Proof.
  intros [Hnd Hin].
  rewrite <- (size_list_to_set (C := gset N) l Hnd).
  f_equal. apply set_eq. intros c. rewrite !elem_of_list_to_set.
  by rewrite Hin.
Qed.

Lemma remove_dups_enumerates (s : str) : Spec.enumerates (remove_dups s) s.
Proof.
  split; [apply NoDup_remove_dups|]. intros c. apply elem_of_remove_dups.
Qed.

End AnalyzerFacts.

(** * Whitespace splitting and maximal runs *)

Section SplitFacts.

Lemma runs_skip_space (c : char) (s : str) (ws : list str) :
  PyStr.isspace c = true → Spec.runs s ws → Spec.runs (c :: s) ws.
Proof.
  intros Hc Hr. destruct Hr as [s Hs | pre w rest ws Hpre Hw Hns Hb Hr].
  - apply Spec.runs_blank. by constructor.
  - apply (Spec.runs_word (c :: pre)); auto.
Qed.

(** What [split_from] returns: with a word in progress it finishes that
    word with the non-whitespace prefix of the input; with none it lists
    the runs of the input. *)
Lemma split_from_runs (s : str) :
  Spec.runs s (PyStr.split_from [] s) ∧
  ∀ cur, cur ≠ [] →
    ∃ w rest ws,
      s = w ++ rest
      ∧ Forall (λ c, PyStr.isspace c = false) w
      ∧ Spec.at_boundary rest
      ∧ Spec.runs rest ws
      ∧ PyStr.split_from cur s = (rev cur ++ w) :: ws.
Proof.
  induction s as [|c s [IHr IHw]].
  - split.
    + apply Spec.runs_blank. constructor.
    + intros cur Hcur. exists [], [], [].
      repeat split; try done.
      * apply Spec.runs_blank. constructor.
      * simpl. rewrite app_nil_r. by destruct cur.
  - destruct (PyStr.isspace c) eqn:Hc.
    + split.
      * simpl. rewrite Hc. by apply runs_skip_space.
      * intros cur Hcur. exists [], (c :: s), (PyStr.split_from [] s).
        repeat split; try done.
        -- by apply runs_skip_space.
        -- simpl. rewrite Hc, app_nil_r. by destruct cur.
    + assert (∀ cur, ∃ w rest ws,
                c :: s = w ++ rest
                ∧ Forall (λ c, PyStr.isspace c = false) w
                ∧ w ≠ []
                ∧ Spec.at_boundary rest
                ∧ Spec.runs rest ws
                ∧ PyStr.split_from cur (c :: s) = (rev cur ++ w) :: ws) as Hgen.
      { intros cur.
        destruct (IHw (c :: cur)) as (w & rest & ws & -> & Hw & Hb & Hr & Heq);
          [done|].
        exists (c :: w), rest, ws. repeat split; try done.
        - by constructor.
        - simpl. rewrite Hc, Heq. simpl. by rewrite <- app_assoc. }
      split.
      * destruct (Hgen []) as (w & rest & ws & -> & Hw & Hne & Hb & Hr & Heq).
        rewrite Heq. simpl. by apply (Spec.runs_word []).
      * intros cur _.
        destruct (Hgen cur) as (w & rest & ws & Hs & Hw & Hne & Hb & Hr & Heq).
        by exists w, rest, ws.
Qed.

Lemma split_runs (s : str) : Spec.runs s (PyStr.split s).
Proof. apply split_from_runs. Qed.

(** The decomposition into maximal runs is unique. *)
Lemma runs_first_word (pre w rest pre' w' rest' : str) :
  Forall (λ c, PyStr.isspace c = true) pre →
  Forall (λ c, PyStr.isspace c = false) w → w ≠ [] → Spec.at_boundary rest →
  Forall (λ c, PyStr.isspace c = true) pre' →
  Forall (λ c, PyStr.isspace c = false) w' → w' ≠ [] → Spec.at_boundary rest' →
  pre ++ w ++ rest = pre' ++ w' ++ rest' →
  pre = pre' ∧ w = w' ∧ rest = rest'.
Proof.
  intros Hpre Hw Hne Hb Hpre' Hw' Hne' Hb'.
  revert pre' Hpre'. induction Hpre as [|p pre Hp Hpre IH]; intros pre' Hpre' Heq.
  - destruct Hpre' as [|p' pre' Hp' Hpre'].
    + split; [done|]. simpl in Heq. clear Hne Hne'.
      revert w' Hw' Heq. induction Hw as [|x w Hx Hw IH]; intros w' Hw' Heq.
      * destruct Hw' as [|x' w' Hx' Hw']; [done|].
        simpl in Heq. subst rest. simpl in Hb. congruence.
      * destruct Hw' as [|x' w' Hx' Hw'].
        -- simpl in Heq. subst rest'. simpl in Hb'. congruence.
        -- simpl in Heq. injection Heq as -> Heq.
           destruct (IH w' Hw' Heq) as [-> ->]. done.
    + destruct Hw as [|x w Hx Hw]; [done|].
      simpl in Heq. injection Heq as -> _. congruence.
  - destruct Hpre' as [|p' pre' Hp' Hpre'].
    + destruct Hw' as [|x' w' Hx' Hw']; [done|].
      simpl in Heq. injection Heq as -> _. congruence.
    + simpl in Heq. injection Heq as -> Heq.
      destruct (IH pre' Hpre' Heq) as (-> & -> & ->). done.
Qed.

Lemma runs_blank_inv (s : str) (ws : list str) :
  Forall (λ c, PyStr.isspace c = true) s → Spec.runs s ws → ws = [].
Proof.
  intros Hs Hr. destruct Hr as [|pre w rest ws Hpre Hne Hw Hb Hr]; [done|].
  destruct w as [|x w]; [done|].
  apply Forall_app in Hs as [_ Hs]. apply Forall_app in Hs as [Hs _].
  apply Forall_cons in Hs as [Hx _]. apply Forall_cons in Hw as [Hx' _].
  congruence.
Qed.

Lemma runs_unique (s : str) (ws ws' : list str) :
  Spec.runs s ws → Spec.runs s ws' → ws = ws'.
Proof.
  intros Hr. revert ws'.
  induction Hr as [s Hs | pre w rest ws Hpre Hne Hw Hb Hr IH]; intros ws' Hr'.
  - symmetry. by eapply runs_blank_inv.
  - inversion Hr' as [s' Hs | pre' w' rest' ws'' Hpre' Hne' Hw' Hb' Hr'' Heq]; subst.
    + eapply runs_blank_inv; [exact Hs|].
      by apply Spec.runs_word.
    + destruct (runs_first_word pre' w' rest' pre w rest) as (-> & -> & ->);
        try done.
      f_equal. by apply IH.
Qed.

(** Every character outside whitespace belongs to a run, in order. *)
Lemma runs_concat (s : str) (ws : list str) :
  Spec.runs s ws →
  concat ws = List.filter (λ c, negb (PyStr.isspace c)) s.
Proof.
  assert (∀ l, Forall (λ c, PyStr.isspace c = true) l →
               List.filter (λ c, negb (PyStr.isspace c)) l = []) as Hsp.
  { induction 1 as [|x l Hx _ IH]; [done|]. simpl. by rewrite Hx. }
  assert (∀ l, Forall (λ c, PyStr.isspace c = false) l →
               List.filter (λ c, negb (PyStr.isspace c)) l = l) as Hns.
  { induction 1 as [|x l Hx _ IH]; [done|]. simpl. by rewrite Hx, IH. }
  induction 1 as [s Hs | pre w rest ws Hpre Hne Hw Hb Hr IH].
  - by rewrite Hsp.
  - rewrite !List.filter_app, Hsp, Hns by done. simpl. by rewrite IH.
Qed.

End SplitFacts.

(** * The analyzer's contract *)

Section AnalyzerContract.
Context `{UnicodeData}.
Import Analyzer.

(** C1, as the code has it. On a string that has a UTF-8 encoding the
    call returns, and [is_palindrome] is true exactly when the string
    with all ASCII spaces removed and lowercased equals its own reverse. "racecar" and
    "Race Car" are palindromes; "race.car" is not, and neither is
    "a<TAB>ba" although "a ba" is: punctuation and other whitespace stay. *)
Theorem palindrome_ignores_spaces_and_case :
  (∀ s : str, PyStr.encodable s →
     ∃ r, analyze_string s = Ok r ∧
          (is_palindrome r = true ↔
           PyStr.lower (Spec.without_spaces s)
           = rev (PyStr.lower (Spec.without_spaces s))))
  ∧ is_palindrome <$> analyze_string (lit "racecar") = Ok true
  ∧ is_palindrome <$> analyze_string (lit "Race Car") = Ok true
  ∧ is_palindrome <$> analyze_string (lit "race.car") = Ok false
  ∧ is_palindrome <$> analyze_string (lit "a ba") = Ok true
  ∧ is_palindrome <$> analyze_string [97; 9; 98; 97]%N = Ok false.
Proof.
  split; [|by vm_compute].
  intros s Hs.
  destruct (analyze_string_returns s Hs) as (r & Hr & _ & Hp & _).
  exists r. split; [done|].
  rewrite Hp, replace_space. apply bool_decide_eq_true.
Qed.

(** C4, as the code has it. On a string that has a UTF-8 encoding the
    call returns; the values of [character_frequency_map] sum to the
    length of the string; the map has one entry per distinct character of
    the string and no other, holding the number of occurrences of that
    character. *)
Theorem frequency_map_partitions_string (s : str) :
  PyStr.encodable s →
  ∃ r, analyze_string s = Ok r
    ∧ Spec.sum_values (character_frequency_map r) = len s
    ∧ (∀ c, c ∈ s →
         character_frequency_map r !! c = Some (Spec.occurrences c s))
    ∧ (∀ c, c ∉ s → character_frequency_map r !! c = None)
    ∧ (∀ l, Spec.enumerates l s →
         size (character_frequency_map r) = List.length l).
Proof.
  intros Hs.
  destruct (analyze_string_returns s Hs) as (r & Hr & _ & _ & _ & _ & Hm & _).
  exists r. split; [done|]. rewrite Hm. repeat split.
  - unfold count_chars. rewrite sum_values_loop.
    unfold Spec.sum_values. rewrite map_fold_empty. lia.
  - intros c Hc. rewrite count_chars_lookup. by rewrite decide_True.
  - intros c Hc. rewrite count_chars_lookup. by rewrite decide_False.
  - intros l Hl. rewrite <- size_dom, count_chars_dom.
    by apply size_list_to_set_enumerates.
Qed.

(** C7, as the code has it. On a string that has a UTF-8 encoding the
    call returns, and [word_count] is the number of maximal runs of
    non-whitespace characters: the runs exist, are unique, and
    [word_count] is how many they are. "hello world" has 2 words, the empty string and a string
    of spaces have none. *)
Theorem word_count_counts_runs :
  (∀ s : str, PyStr.encodable s →
     ∃ r ws, analyze_string s = Ok r
       ∧ Spec.runs s ws
       ∧ (∀ ws', Spec.runs s ws' → ws' = ws)
       ∧ word_count r = len ws)
  ∧ word_count <$> analyze_string (lit "hello world") = Ok 2
  ∧ word_count <$> analyze_string (lit "") = Ok 0
  ∧ word_count <$> analyze_string (lit "   ") = Ok 0
  ∧ word_count <$> analyze_string [9; 97; 10; 13; 98; 0xA0; 99; 32]%N = Ok 3.
Proof.
  split; [|by vm_compute].
  intros s Hs.
  destruct (analyze_string_returns s Hs) as (r & Hr & _ & _ & _ & Hw & _).
  exists r, (PyStr.split s). repeat split; try done.
  - apply split_runs.
  - intros ws' Hws'. eapply runs_unique; [done|apply split_runs].
Qed.

(** C8, as the code has it. On a string that has a UTF-8 encoding the
    call returns; [length] is the number of characters of the string as
    given, and [unique_characters] the number of its distinct characters:
    the length of any duplicate-free list of them. Case and spaces count:
    "Aa a" has length 4 and 3 distinct characters. *)
Theorem length_and_unique_are_raw :
  (∀ s : str, PyStr.encodable s →
     ∃ r, analyze_string s = Ok r
       ∧ length r = Z.of_nat (List.length s)
       ∧ unique_characters r = len (remove_dups s)
       ∧ ∀ l, Spec.enumerates l s → unique_characters r = len l)
  ∧ length <$> analyze_string (lit "Aa a") = Ok 4
  ∧ unique_characters <$> analyze_string (lit "Aa a") = Ok 3.
Proof.
  split; [|by vm_compute].
  intros s Hs.
  destruct (analyze_string_returns s Hs) as (r & Hr & Hl & _ & Hu & _).
  exists r. rewrite Hu. repeat split; try done.
  - unfold len. f_equal. apply size_list_to_set_enumerates,
      remove_dups_enumerates.
  - intros l Hl'. unfold len. f_equal. by apply size_list_to_set_enumerates.
Qed.

(** C10, as the code has it. On a string that has a UTF-8 encoding the
    call returns, and [unique_characters] equals the number of keys of
    [character_frequency_map]: both range over the set of characters of
    the string. *)
Theorem unique_count_matches_frequency_keys (s : str) :
  PyStr.encodable s →
  ∃ r, analyze_string s = Ok r
    ∧ unique_characters r = Z.of_nat (size (character_frequency_map r))
    ∧ dom (character_frequency_map r) = list_to_set s.
Proof.
  intros Hs.
  destruct (analyze_string_returns s Hs) as (r & Hr & _ & _ & Hu & _ & Hm & _).
  exists r. split; [done|]. rewrite Hu, Hm, <- count_chars_dom.
  split; [|done]. f_equal. apply size_dom.
Qed.

End AnalyzerContract.

(** * Substring search and the patterns of the parser *)

Section ParserFacts.
Context `{UnicodeData}.
Import Re NlpParser.

Lemma startswith_prefix (p s : str) :
  PyStr.startswith p s = true ↔ ∃ post, s = p ++ post.
Proof.
  revert s. induction p as [|a p IH]; intros s.
  - simpl. split; [by exists s | done].
  - destruct s as [|b s]; simpl.
    + split; [done | by intros [? ?]].
    + rewrite andb_true_iff, N.eqb_eq, IH. split.
      * intros [-> [post ->]]. by exists post.
      * intros [post [= -> ->]]. eauto.
Qed.

Lemma startswith_drop (p s : str) :
  PyStr.startswith p s = true → s = p ++ drop (List.length p) s.
Proof.
  intros [post ->]%startswith_prefix.
  by rewrite drop_app_length.
Qed.

(** [sub in t] decides whether [sub] occurs in [t]. *)
Lemma contains_occurs (sub t : str) :
  PyStr.contains sub t = true ↔ Spec.occurs sub t.
Proof.
  induction t as [|c t IH].
  - simpl. rewrite orb_false_r, startswith_prefix. split.
    + intros [post Hp]. by exists [], post.
    + intros ([|? ?] & post & Hp); [by exists post | done].
  - cbn [PyStr.contains]. rewrite orb_true_iff, IH, startswith_prefix. split.
    + intros [[post Hp] | (pre & post & ->)].
      * by exists [], post.
      * by exists (c :: pre), post.
    + intros ([|x pre] & post & Hp).
      * left. by exists post.
      * right. injection Hp as -> ->. by exists pre, post.
Qed.

(** ** Numeral patterns *)

Lemma leading_digits_prefix (s : str) :
  take (List.length (Spec.leading_digits s)) s = Spec.leading_digits s.
Proof.
  induction s as [|c s IH]; [done|]. simpl.
  destruct (PyStr.isdecimal c); simpl; [by rewrite IH | done].
Qed.

Lemma leading_digits_length (s : str) :
  (List.length (Spec.leading_digits s) ≤ List.length s)%nat.
Proof.
  induction s as [|c s IH]; [done|]. simpl.
  destruct (PyStr.isdecimal c); simpl; lia.
Qed.

Lemma leading_digits_all (s : str) :
  Forall (λ c, PyStr.isdecimal c = true) (Spec.leading_digits s).
Proof.
  induction s as [|c s IH]; [constructor|]. simpl.
  destruct (PyStr.isdecimal c) eqn:Hc; by constructor.
Qed.

(** The digits stop at the first character that is not one. *)
Lemma leading_digits_maximal (s : str) :
  match drop (List.length (Spec.leading_digits s)) s with
  | [] => True
  | c :: _ => PyStr.isdecimal c = false
  end.
Proof.
  induction s as [|c s IH]; [done|]. simpl.
  destruct (PyStr.isdecimal c) eqn:Hc; simpl; done.
Qed.

(** A greedy [\d*] in front of a continuation that cannot fail takes all
    the digits. *)
Lemma star_digits {R} (s : str) (k : str → option R) :
  (∀ t, is_Some (k t)) →
  star Digit s k = k (drop (List.length (Spec.leading_digits s)) s).
Proof.
  intros Hk. induction s as [|c s IH]; [done|].
  cbn [star in_cset Spec.leading_digits].
  destruct (PyStr.isdecimal c); [|done].
  rewrite IH. simpl. by destruct (Hk (drop (List.length (Spec.leading_digits s)) s)) as [x ->].
Qed.

Lemma match_here_numeral (phrase t : str) :
  match_here (Seq (Lit phrase) (Group (Plus Digit))) t =
  match (if PyStr.startswith phrase t
         then Spec.leading_digits (drop (List.length phrase) t) else []) with
  | (_ :: _) as ds => Some {| group1 := Some ds |}
  | [] => None
  end.
Proof.
  unfold match_here. cbn [exec].
  destruct (PyStr.startswith phrase t); [|done].
  destruct (drop (List.length phrase) t) as [|c u]; [done|].
  cbn [in_cset Spec.leading_digits].
  destruct (PyStr.isdecimal c); [|done].
  rewrite star_digits by eauto.
  pose proof (leading_digits_length u). rewrite length_drop.
  replace (List.length (c :: u) - (List.length u - List.length (Spec.leading_digits u)))%nat
    with (S (List.length (Spec.leading_digits u))) by (simpl; lia).
  simpl. by rewrite leading_digits_prefix.
Qed.

(** [re.search] with a numeral pattern finds the numeral after the
    leftmost occurrence of the phrase that a digit follows. *)
Lemma search_numeral (phrase t : str) :
  search (Seq (Lit phrase) (Group (Plus Digit))) t =
  (λ ds, {| group1 := Some ds |}) <$> Spec.numeral_after phrase t.
Proof.
  induction t as [|c t IH].
  - cbn [search Spec.numeral_after]. rewrite match_here_numeral.
    by destruct (if PyStr.startswith phrase [] then _ else _).
  - cbn [search Spec.numeral_after]. rewrite match_here_numeral.
    by destruct (if PyStr.startswith phrase (c :: t) then _ else _).
Qed.

(** The text bound to group 1 is a non-empty string of digits, which is
    what [int] is applied to. *)
Lemma group_digits (phrase t ds : str) :
  Spec.numeral_after phrase t = Some ds →
  ds ≠ [] ∧ Forall (λ c, PyStr.isdecimal c = true) ds.
Proof.
  induction t as [|c t IH]; cbn [Spec.numeral_after].
  - destruct (PyStr.startswith phrase []); [|done].
    pose proof (leading_digits_all (drop (List.length phrase) [])) as Hd.
    destruct (Spec.leading_digits _); [done|]. by intros [= <-].
  - destruct (PyStr.startswith phrase (c :: t)); [|exact IH].
    pose proof (leading_digits_all (drop (List.length phrase) (c :: t))) as Hd.
    destruct (Spec.leading_digits _); [exact IH|]. by intros [= <-].
Qed.

(** [int] reads the digits positionally, most significant first. *)
Lemma int_snoc (ds : str) (d : char) :
  PyStr.int (ds ++ [d]) = 10 * PyStr.int ds + default 0 (PyStr.decimal_value d).
Proof. unfold PyStr.int. by rewrite foldl_app. Qed.

(** [numeral_after] is sound: the phrase stands in the text, the digits
    follow it and end there, and no occurrence further left has a digit
    after it. *)
Lemma numeral_after_sound (phrase t ds : str) :
  Spec.numeral_after phrase t = Some ds →
  ∃ pre post,
    t = pre ++ phrase ++ ds ++ post
    ∧ match post with [] => True | c :: _ => PyStr.isdecimal c = false end
    ∧ ∀ pre' d post', t = pre' ++ phrase ++ d :: post' →
        PyStr.isdecimal d = true → (List.length pre ≤ List.length pre')%nat.
Proof.
  assert (∀ t, PyStr.startswith phrase t = true →
            ∃ post, t = phrase ++ Spec.leading_digits (drop (List.length phrase) t) ++ post
              ∧ match post with [] => True | c :: _ => PyStr.isdecimal c = false end)
    as Hhere.
  { intros u Hu. apply startswith_drop in Hu.
    set (v := drop (List.length phrase) u) in *.
    exists (drop (List.length (Spec.leading_digits v)) v). split.
    - assert (v = Spec.leading_digits v
                  ++ drop (List.length (Spec.leading_digits v)) v) as <-; [|exact Hu].
      rewrite <- (take_drop (List.length (Spec.leading_digits v)) v) at 1.
      by rewrite leading_digits_prefix.
    - apply leading_digits_maximal. }
  assert (∀ t, (if PyStr.startswith phrase t
                then Spec.leading_digits (drop (List.length phrase) t) else []) = [] →
            ∀ d post', t = phrase ++ d :: post' → PyStr.isdecimal d = false)
    as Hnot.
  { intros u Hu d post' ->.
    assert (PyStr.startswith phrase (phrase ++ d :: post') = true) as Hs
      by (apply startswith_prefix; eauto).
    rewrite Hs, drop_app_length in Hu. simpl in Hu.
    by destruct (PyStr.isdecimal d). }
  induction t as [|c t IH]; cbn [Spec.numeral_after].
  - destruct (if PyStr.startswith phrase [] then _ else _) as [|x l] eqn:Hm;
      [done|]. intros [= <-].
    destruct (PyStr.startswith phrase []) eqn:Hs; [|done].
    destruct (Hhere _ Hs) as (post & Ht & Hpost). rewrite Hm in Ht.
    exists [], post. repeat split; try done. intros; simpl; lia.
  - destruct (if PyStr.startswith phrase (c :: t) then _ else _) as [|x l] eqn:Hm.
    + intros Hds. destruct (IH Hds) as (pre & post & -> & Hpost & Hleft).
      exists (c :: pre), post. repeat split; try done.
      intros [|c' pre'] d post' Heq Hd.
      * simpl in Heq. rewrite (Hnot _ Hm d post' Heq) in Hd. done.
      * injection Heq as -> Heq. simpl. apply le_n_S. by eapply Hleft.
    + intros [= <-].
      destruct (PyStr.startswith phrase (c :: t)) eqn:Hs; [|done].
      destruct (Hhere _ Hs) as (post & Ht & Hpost). rewrite Hm in Ht.
      exists [], post. repeat split; try done. intros; simpl; lia.
Qed.

(** ... and complete: without a result, no occurrence of the phrase is
    followed by a digit. *)
Lemma numeral_after_none (phrase t : str) :
  Spec.numeral_after phrase t = None →
  ∀ pre d post, t = pre ++ phrase ++ d :: post → PyStr.isdecimal d = false.
Proof.
  induction t as [|c t IH]; cbn [Spec.numeral_after].
  - destruct (if PyStr.startswith phrase [] then _ else _) as [|x l] eqn:Hm;
      [|done].
    intros _ pre d post Heq.
    destruct pre; [|done]. destruct phrase; done.
  - destruct (if PyStr.startswith phrase (c :: t) then _ else _) as [|x l] eqn:Hm;
      [|done].
    intros Hn [|c' pre] d post Heq.
    + simpl in Heq.
      assert (PyStr.startswith phrase (c :: t) = true) as Hs
        by (apply startswith_prefix; eauto).
      rewrite Hs, Heq, drop_app_length in Hm. simpl in Hm.
      by destruct (PyStr.isdecimal d).
    + injection Heq as -> Heq. by eapply IH.
Qed.

End ParserFacts.

(** * The rules of the parser, field by field *)

Section ParserRules.
Context `{UnicodeData}.
Import Re NlpParser.

(** A conditional write to another key does not show at key [k]. *)
Lemma lookup_if_insert_ne (b : bool) (k k' : string) (v : value)
    (m : gmap string value) :
  k ≠ k' → (if b then <[k' := v]> m else m) !! k = m !! k.
Proof. intros Hne. destruct b; [by rewrite lookup_insert_ne|done]. Qed.

Lemma lookup_match_insert_ne {A} (o : option A) (k k' : string)
    (f : A → value) (m : gmap string value) :
  k ≠ k' →
  match o with Some x => <[k' := f x]> m | None => m end !! k = m !! k.
Proof. intros Hne. destruct o; [by rewrite lookup_insert_ne|done]. Qed.

Lemma lookup_if_insert (b : bool) (k : string) (v : value)
    (m : gmap string value) :
  (if b then <[k := v]> m else m) !! k = if b then Some v else m !! k.
Proof. destruct b; [by rewrite lookup_insert_eq|done]. Qed.

Lemma lookup_match_insert {A} (o : option A) (k : string)
    (f : A → value) (m : gmap string value) :
  match o with Some x => <[k := f x]> m | None => m end !! k =
  match o with Some x => Some (f x) | None => m !! k end.
Proof. destruct o; [by rewrite lookup_insert_eq|done]. Qed.

Ltac skip_writes :=
  repeat first
    [ rewrite lookup_if_insert_ne by done
    | rewrite lookup_match_insert_ne by done ].

(** [word_count] is written by the first chain of tests only. *)
Lemma parse_word_count (query : str) :
  parse_natural_language_query query !! "word_count" =
  let t := PyStr.lower query in
  if PyStr.contains (lit "single word") t || PyStr.contains (lit "one word") t
  then Some (VInt 1)
  else if PyStr.contains (lit "two word") t || PyStr.contains (lit "2 word") t
  then Some (VInt 2)
  else if PyStr.contains (lit "three word") t || PyStr.contains (lit "3 word") t
  then Some (VInt 3)
  else None.
Proof.
  unfold parse_natural_language_query. cbv zeta. skip_writes.
  repeat match goal with
         | |- context [if ?b then _ else _] => destruct b
         end; by simplify_map_eq.
Qed.

Lemma parse_is_palindrome (query : str) :
  parse_natural_language_query query !! "is_palindrome" =
  if PyStr.contains (lit "palindrom") (PyStr.lower query)
  then Some (VBool true) else None.
Proof.
  unfold parse_natural_language_query. cbv zeta. skip_writes.
  rewrite lookup_if_insert.
  destruct (PyStr.contains (lit "palindrom") _); [done|].
  repeat match goal with
         | |- context [if ?b then _ else _] => destruct b
         end; by simplify_map_eq.
Qed.

(** [min_length]: "at least" is tested after "longer than" and
    overwrites it. *)
Lemma parse_min_length (query : str) :
  parse_natural_language_query query !! "min_length" =
  let t := PyStr.lower query in
  match Spec.numeral_after (lit "at least ") t with
  | Some ds => Some (VInt (PyStr.int ds))
  | None =>
      match Spec.numeral_after (lit "longer than ") t with
      | Some ds => Some (VInt (PyStr.int ds + 1))
      | None => None
      end
  end.
Proof.
  unfold parse_natural_language_query. cbv zeta. skip_writes.
  rewrite lookup_match_insert. skip_writes. rewrite lookup_match_insert.
  skip_writes.
  unfold re_at_least, re_longer_than. rewrite !search_numeral.
  destruct (Spec.numeral_after (lit "at least ") _); [done|].
  destruct (Spec.numeral_after (lit "longer than ") _); [done|]. simpl.
  repeat match goal with
         | |- context [if ?b then _ else _] => destruct b
         end; by simplify_map_eq.
Qed.

(** [max_length]: "at most" is tested after "shorter than" and
    overwrites it. *)
Lemma parse_max_length (query : str) :
  parse_natural_language_query query !! "max_length" =
  let t := PyStr.lower query in
  match Spec.numeral_after (lit "at most ") t with
  | Some ds => Some (VInt (PyStr.int ds))
  | None =>
      match Spec.numeral_after (lit "shorter than ") t with
      | Some ds => Some (VInt (PyStr.int ds - 1))
      | None => None
      end
  end.
Proof.
  unfold parse_natural_language_query. cbv zeta. skip_writes.
  rewrite lookup_match_insert. skip_writes. rewrite lookup_match_insert.
  skip_writes.
  unfold re_at_most, re_shorter_than. rewrite !search_numeral.
  destruct (Spec.numeral_after (lit "at most ") _); [done|].
  destruct (Spec.numeral_after (lit "shorter than ") _); [done|]. simpl.
  repeat match goal with
         | |- context [if ?b then _ else _] => destruct b
         end; by simplify_map_eq.
Qed.

(** [contains_character]: the letter pattern first, then "first vowel",
    then "last vowel"; the last write stays. *)
Lemma parse_contains_character (query : str) :
  parse_natural_language_query query !! "contains_character" =
  let t := PyStr.lower query in
  if PyStr.contains (lit "last vowel") t then Some (VStr (lit "u"))
  else if PyStr.contains (lit "first vowel") t then Some (VStr (lit "a"))
  else match search re_letter t with
       | Some letter_match => Some (VStr (group letter_match))
       | None => None
       end.
Proof.
  unfold parse_natural_language_query. cbv zeta.
  rewrite !lookup_if_insert, lookup_match_insert. skip_writes.
  destruct (PyStr.contains (lit "last vowel") _); [done|].
  destruct (PyStr.contains (lit "first vowel") _); [done|].
  destruct (search re_letter _); [done|].
  repeat match goal with
         | |- context [if ?b then _ else _] => destruct b
         end; by simplify_map_eq.
Qed.

(** The parser writes no other key. *)
Lemma parse_other_keys (query : str) (k : string) :
  k ≠ "word_count" → k ≠ "is_palindrome" → k ≠ "min_length" →
  k ≠ "max_length" → k ≠ "contains_character" →
  parse_natural_language_query query !! k = None.
Proof.
  intros. unfold parse_natural_language_query. cbv zeta. skip_writes.
  repeat match goal with
         | |- context [if ?b then _ else _] => destruct b
         end; by simplify_map_eq.
Qed.

(** ** The letter pattern *)

(** A successful match ran its continuation. *)
Lemma exec_some {R} (r : regex) (s : str) (g : option str)
    (k : str → option str → option R) (x : R) :
  exec r s g k = Some x → ∃ t g', k t g' = Some x.
Proof.
  revert s g k. induction r as [l|cs|cs|r IH|r IH|r1 IH1 r2 IH2];
    intros s g k; cbn [exec].
  - destruct (PyStr.startswith l s); [eauto|done].
  - destruct s as [|c s]; [done|]. destruct (in_cset cs c); [eauto|done].
  - destruct s as [|c s]; [done|]. destruct (in_cset cs c); [|done].
    generalize s. intros u. induction u as [|d u IHu]; cbn [star]; [eauto|].
    destruct (in_cset cs d); [|eauto].
    destruct (star cs u _) eqn:Hu; [|eauto].
    intros [= <-]. by apply IHu.
  - destruct (exec r s g k) eqn:Hr; [|eauto]. intros [= <-]. by eapply IH.
  - intros (t & g' & Hk)%IH. eauto.
  - intros (t & g' & Hk)%IH1. by eapply IH2.
Qed.

Lemma exec_seq_some {R} (r1 r2 : regex) (s : str) (g : option str)
    (k : str → option str → option R) (x : R) :
  exec (Seq r1 r2) s g k = Some x → ∃ t g', exec r2 t g' k = Some x.
Proof. cbn [exec]. apply exec_some. Qed.

Lemma exec_group_set {R} (cs : cset) (s : str) (g : option str)
    (k : str → option str → option R) (x : R) :
  exec (Group (Set_ cs)) s g k = Some x →
  ∃ c t, in_cset cs c = true ∧ k t (Some [c]) = Some x.
Proof.
  cbn [exec]. destruct s as [|c s]; [done|].
  destruct (in_cset cs c) eqn:Hc; [|done].
  replace (List.length (c :: s) - List.length s)%nat with 1%nat
    by (simpl; lia).
  intros Hk. by exists c, s.
Qed.

(** Group 1 of the letter pattern is one lowercase ASCII letter. *)
Lemma letter_match_group (t : str) (m : Match) :
  search re_letter t = Some m →
  ∃ c, group1 m = Some [c] ∧ (97 ≤ c ≤ 122)%N.
Proof.
  assert (∀ u, match_here re_letter u = Some m →
               ∃ c, group1 m = Some [c] ∧ (97 ≤ c ≤ 122)%N) as Hhere.
  { intros u. unfold match_here, re_letter. intros Hm.
    do 5 apply exec_seq_some in Hm as (? & ? & Hm).
    apply exec_group_set in Hm as (c & ? & Hc & Hm).
    injection Hm as <-. exists c. split; [done|].
    cbn [in_cset] in Hc.
    apply andb_true_iff in Hc as [?%N.leb_le ?%N.leb_le]. done. }
  induction t as [|c t IH]; cbn [search].
  - destruct (match_here re_letter []) eqn:Hm; [|done].
    intros [= <-]. by eapply Hhere.
  - destruct (match_here re_letter (c :: t)) eqn:Hm.
    + intros [= <-]. by eapply Hhere.
    + exact IH.
Qed.

(** What the parser returns is a filter set. *)
Lemma parse_is_filter_set (query : str) :
  Spec.is_filter_set (parse_natural_language_query query).
Proof.
  intros k v Hk.
  destruct (decide (k = "word_count")) as [->|].
  { rewrite parse_word_count in Hk. cbv zeta in Hk.
    repeat match type of Hk with
           | context [if ?b then _ else _] => destruct b
           end; by simplify_eq. }
  destruct (decide (k = "is_palindrome")) as [->|].
  { rewrite parse_is_palindrome in Hk.
    destruct (PyStr.contains _ _); by simplify_eq. }
  destruct (decide (k = "min_length")) as [->|].
  { rewrite parse_min_length in Hk. cbv zeta in Hk.
    repeat match type of Hk with
           | context [match ?o with Some _ => _ | None => _ end] => destruct o
           end; by simplify_eq. }
  destruct (decide (k = "max_length")) as [->|].
  { rewrite parse_max_length in Hk. cbv zeta in Hk.
    repeat match type of Hk with
           | context [match ?o with Some _ => _ | None => _ end] => destruct o
           end; by simplify_eq. }
  destruct (decide (k = "contains_character")) as [->|].
  { rewrite parse_contains_character in Hk. cbv zeta in Hk.
    destruct (PyStr.contains (lit "last vowel") _); [by simplify_eq|].
    destruct (PyStr.contains (lit "first vowel") _); [by simplify_eq|].
    destruct (search re_letter _) as [m|] eqn:Hm; [|done].
    destruct (letter_match_group _ _ Hm) as (c & Hg & _).
    injection Hk as <-. unfold group. rewrite Hg. done. }
  by rewrite parse_other_keys in Hk.
Qed.

(** ** Conflicts *)

Lemma validate_depends_on_bounds (f f' : gmap string value) :
  f !! "min_length" = f' !! "min_length" →
  f !! "max_length" = f' !! "max_length" →
  validate_parsed_filters f = validate_parsed_filters f'.
Proof. unfold validate_parsed_filters. by intros -> ->. Qed.

Lemma filter_set_bound (f : gmap string value) (k : string) (v : value) :
  Spec.is_filter_set f → k = "min_length" ∨ k = "max_length" →
  f !! k = Some v → ∃ n, v = VInt n.
Proof.
  intros Hf Hk Hv. specialize (Hf k v Hv). simpl in Hf.
  destruct v as [n|b|s]; [by exists n|..];
    apply bool_decide_eq_true in Hf.
  - subst k. by destruct Hk.
  - destruct Hf as [-> _]. by destruct Hk.
Qed.

End ParserRules.

(** * The parser as a call that can raise *)

Section ParserCall.
Context `{UnicodeData} `{Interpreter}.
Import Re NlpParser.

(** Up to 640 digits are converted whatever the limit is. *)
Lemma exceeds_limit_short (s : str) :
  len s ≤ 640 → PyStr.exceeds_limit s = false.
Proof.
  intros Hs. unfold PyStr.exceeds_limit.
  pose proof int_max_str_digits_valid as Hv.
  apply orb_true_iff in Hv as [Hv|Hv].
  - apply Z.eqb_eq in Hv. rewrite Hv. done.
  - apply Z.leb_le in Hv. apply andb_false_iff. right. apply Z.ltb_ge. lia.
Qed.

Lemma exceeds_limit_spec (s : str) :
  PyStr.exceeds_limit s = true ↔
  0 < int_max_str_digits ∧ int_max_str_digits < len s.
Proof.
  unfold PyStr.exceeds_limit.
  by rewrite andb_true_iff, !Z.ltb_lt.
Qed.

(** The call raises [ValueError] when one of the four numerals is too
    long for [int], and returns the dictionary otherwise. *)
Lemma parse_call_characterised (query : str) :
  parse_natural_language_query_call query =
  if Spec.overlong_numeral (PyStr.lower query) then Raise ValueError
  else Ok (parse_natural_language_query query).
Proof.
  unfold parse_natural_language_query_call, parse_natural_language_query,
    Spec.overlong_numeral, Spec.too_long.
  cbv zeta.
  unfold re_at_least, re_longer_than, re_at_most, re_shorter_than.
  rewrite !search_numeral.
  set (f0 := if _ : bool then _ else _).
  clearbody f0. unfold PyStr.int_call.
  destruct (Spec.numeral_after (lit "longer than ") _) as [d1|];
  destruct (Spec.numeral_after (lit "shorter than ") _) as [d2|];
  destruct (Spec.numeral_after (lit "at least ") _) as [d3|];
  destruct (Spec.numeral_after (lit "at most ") _) as [d4|];
  cbn [fmap option_fmap option_map group group1 default id];
  repeat match goal with
         | |- context [PyStr.exceeds_limit ?x] =>
             destruct (PyStr.exceeds_limit x)
         end;
  reflexivity.
Qed.

Lemma parse_call_inv (query : str) (f : gmap string value) :
  parse_natural_language_query_call query = Ok f →
  Spec.overlong_numeral (PyStr.lower query) = false
  ∧ f = parse_natural_language_query query.
Proof.
  rewrite parse_call_characterised.
  destruct (Spec.overlong_numeral _); [done|]. by intros [= <-].
Qed.

Lemma too_long_short (phrase t : str) :
  from_option (λ ds, bool_decide (len ds ≤ 640)) true
    (Spec.numeral_after phrase t) = true →
  Spec.too_long phrase t = false.
Proof.
  unfold Spec.too_long. destruct (Spec.numeral_after phrase t) as [ds|]; [|done].
  simpl. intros Hs%bool_decide_eq_true. by apply exceeds_limit_short.
Qed.

(** A query whose numerals have at most 640 digits is parsed by every
    interpreter. *)
Lemma parse_call_short (query : str) :
  let t := PyStr.lower query in
  forallb (λ phrase,
             from_option (λ ds, bool_decide (len ds ≤ 640)) true
               (Spec.numeral_after phrase t))
    [lit "longer than "; lit "shorter than "; lit "at least "; lit "at most "]
  = true →
  parse_natural_language_query_call query
  = Ok (parse_natural_language_query query).
Proof.
  intros t Hs. rewrite parse_call_characterised. fold t.
  cbn [forallb] in Hs. rewrite !andb_true_iff in Hs.
  destruct Hs as (H1 & H2 & H3 & H4 & _).
  unfold Spec.overlong_numeral.
  by rewrite !too_long_short.
Qed.

End ParserCall.

(** * The parser's contract *)

Section ParserContract.
Context `{UnicodeData} `{Interpreter}.
Import Re NlpParser.


(** C5, as the code has it. When one of the four numerals has more
    digits than [int] converts, the call raises [ValueError] and sets
    nothing. Otherwise it returns a dictionary in which [min_length] is
    the numeral after "at least " when the text has one; otherwise one
    more than the numeral after "longer than "; otherwise absent; and
    [max_length] is the numeral after "at most " when the text has one;
    otherwise one less than the numeral after "shorter than ", which can
    be negative; otherwise absent. The numeral is the whole run of digits
    at the leftmost match. *)
Theorem length_bounds_from_numerals :
  (∀ query : str,
     let t := PyStr.lower query in
     if Spec.overlong_numeral t
     then parse_natural_language_query_call query = Raise ValueError
     else
       ∃ f, parse_natural_language_query_call query = Ok f
         ∧ f !! "min_length" =
           match Spec.numeral_after (lit "at least ") t with
           | Some n => Some (VInt (PyStr.int n))
           | None =>
               match Spec.numeral_after (lit "longer than ") t with
               | Some n => Some (VInt (PyStr.int n + 1))
               | None => None
               end
           end
         ∧ f !! "max_length" =
           match Spec.numeral_after (lit "at most ") t with
           | Some n => Some (VInt (PyStr.int n))
           | None =>
               match Spec.numeral_after (lit "shorter than ") t with
               | Some n => Some (VInt (PyStr.int n - 1))
               | None => None
               end
           end)
  ∧ parse_natural_language_query_call (lit "strings longer than 10 characters")
    = Ok {[ "min_length" := VInt 11 ]}
  ∧ parse_natural_language_query_call (lit "strings shorter than 0 characters")
    = Ok {[ "max_length" := VInt (-1) ]}
  ∧ parse_natural_language_query_call (lit "at least 5 and at most 20 characters")
    = Ok {[ "min_length" := VInt 5; "max_length" := VInt 20 ]}.
Proof.
  split.
  - intros query t. rewrite parse_call_characterised. fold t.
    destruct (Spec.overlong_numeral t); [done|].
    eexists. split; [done|].
    split; [apply parse_min_length | apply parse_max_length].
  - repeat split;
      (rewrite parse_call_short by (vm_compute; reflexivity));
      f_equal; vm_compute; reflexivity.
Qed.

(** C6, as the code has it. The query of the docstring yields exactly
    [is_palindrome] and [contains_character = 'a']. The letter pattern
    does match in it: after "contain" and the optional " the" it binds
    the "f" of "first". The two vowel phrases are tested after the letter
    pattern and overwrite what it wrote: "last vowel" gives 'u', else
    "first vowel" gives 'a', else the matched letter stays. *)
Theorem first_vowel_overwrites_letter_match :
  parse_natural_language_query
    (lit "palindromic strings that contain the first vowel")
  = {[ "is_palindrome" := VBool true; "contains_character" := VStr (lit "a") ]}
  ∧ group <$> search re_letter
      (PyStr.lower (lit "palindromic strings that contain the first vowel"))
    = Some (lit "f")
  ∧ ∀ query : str,
      let t := PyStr.lower query in
      parse_natural_language_query query !! "contains_character" =
        if PyStr.contains (lit "last vowel") t then Some (VStr (lit "u"))
        else if PyStr.contains (lit "first vowel") t then Some (VStr (lit "a"))
        else VStr ∘ group <$> search re_letter t.
Proof.
  split; [vm_compute; reflexivity|]. split; [vm_compute; reflexivity|].
  intros query t. rewrite parse_contains_character. cbv zeta. fold t.
  by destruct (search re_letter t).
Qed.

End ParserContract.

Section ValidatorContract.
Import NlpParser.

(** C3. On a filter set [validate_parsed_filters] returns, and it reports
    a conflict exactly when [min_length] and [max_length] are both
    present and [min_length > max_length]. No other key has any effect
    on the report. [{min_length: 20, max_length: 5}] conflicts,
    [{min_length: 5, max_length: 20}] does not. *)
Theorem conflict_iff_min_exceeds_max :
  (∀ f : gmap string value, Spec.is_filter_set f →
     ∃ report, validate_parsed_filters f = Ok report ∧
       (report ≠ None ↔
        ∃ lo hi, f !! "min_length" = Some (VInt lo)
               ∧ f !! "max_length" = Some (VInt hi) ∧ lo > hi))
  ∧ (∀ (f : gmap string value) k v, k ≠ "min_length" → k ≠ "max_length" →
       validate_parsed_filters (<[k := v]> f) = validate_parsed_filters f)
  ∧ validate_parsed_filters {[ "min_length" := VInt 20; "max_length" := VInt 5 ]}
    = Ok (Some conflict_message)
  ∧ validate_parsed_filters {[ "min_length" := VInt 5; "max_length" := VInt 20 ]}
    = Ok None.
Proof.
  split; [|split; [|by vm_compute]].
  - intros f Hf. unfold validate_parsed_filters.
    destruct (f !! "min_length") as [lo|] eqn:Hlo.
    2: { exists None. split; [done|]. split; [done|]. by intros (? & ? & ? & _). }
    destruct (f !! "max_length") as [hi|] eqn:Hhi.
    2: { exists None. split; [done|]. split; [done|]. by intros (? & ? & _ & ? & _). }
    destruct (filter_set_bound f "min_length" lo Hf) as [a ->]; [by left|done|].
    destruct (filter_set_bound f "max_length" hi Hf) as [b ->]; [by right|done|].
    simpl. destruct (b <? a) eqn:Hab.
    + eexists. split; [done|]. split; [|done].
      intros _. exists a, b. apply Z.ltb_lt in Hab. repeat split; [lia].
    + exists None. split; [done|]. split; [done|].
      intros (lo & hi & [= <-] & [= <-] & Hgt). apply Z.ltb_ge in Hab. lia.
  - intros f k v Hk1 Hk2. apply validate_depends_on_bounds;
      by rewrite lookup_insert_ne.
Qed.

End ValidatorContract.

(** * Instances on concrete inputs *)

Section Instances.
Import Analyzer Re NlpParser.

(** Test vectors of FIPS 180-4 for the digest, one and two blocks, and the
    encoding of characters of two, three and four bytes. *)
Example sha256_empty :
  Sha256.hexdigest [] =
  lit "e3b0c44298fc1c149afbf4c8996fb92427ae41e4649b934ca495991b7852b855".
Proof. by vm_compute. Qed.

Example sha256_abc :
  Sha256.hexdigest [97; 98; 99] =
  lit "ba7816bf8f01cfea414140de5dae2223b00361a396177a9cb410ff61f20015ad".
Proof. by vm_compute. Qed.

Example sha256_two_blocks :
  (bs ← PyStr.encode
          (lit "abcdbcdecdefdefgefghfghighijhijkijkljklmklmnlmnomnopnopq");
   Ok (Sha256.hexdigest bs)) =
  Ok (lit "248d6a61d20638b8e5c026930c3e6039a33ce45964ff2167f6ecedd419db06c1").
Proof. by vm_compute. Qed.

Example encode_multibyte :
  PyStr.encode [0xE9; 0x20AC; 0x1F600]%N =
  Ok [0xC3; 0xA9; 0xE2; 0x82; 0xAC; 0xF0; 0x9F; 0x98; 0x80].
Proof. by vm_compute. Qed.

Example encode_surrogate :
  Analyzer.analyze_string (H := sample_unicode) [97; 0xD800]%N
  = Raise UnicodeEncodeError.
Proof. by vm_compute. Qed.

Example int_digits :
  PyStr.int (H := sample_unicode) (lit "0042") = 42
  ∧ PyStr.int (H := sample_unicode) [0x661; 0x662]%N = 12.
Proof. by vm_compute. Qed.

Lemma ascii_encodable (s : string) :
  forallb PyStr.is_ascii (lit s) = true → PyStr.encodable (lit s).
Proof.
  intros Hs. apply Forall_forall. intros c Hc.
  rewrite forallb_forall in Hs.
  assert (PyStr.is_ascii c = true) as Ha by (apply Hs; by apply list_elem_of_In).
  unfold PyStr.is_ascii in Ha. apply N.ltb_lt in Ha.
  unfold PyStr.utf8_char. cbv zeta.
  destruct (Z.of_N c <? 128) eqn:Hlt; [by eexists|].
  apply Z.ltb_ge in Hlt. lia.
Qed.

Lemma palindrome_ignores_spaces_and_case_witness :
  PyStr.encodable (lit "Race Car") ∧
  ∃ r, analyze_string (H := sample_unicode) (lit "Race Car") = Ok r ∧
       (is_palindrome r = true ↔
        PyStr.lower (H := sample_unicode) (Spec.without_spaces (lit "Race Car"))
        = rev (PyStr.lower (H := sample_unicode)
                 (Spec.without_spaces (lit "Race Car")))).
Proof.
  assert (PyStr.encodable (lit "Race Car")) as He
    by (apply ascii_encodable; reflexivity).
  split; [exact He|].
  exact (proj1 (palindrome_ignores_spaces_and_case (H := sample_unicode))
           (lit "Race Car") He).
Defined.

Lemma frequency_map_partitions_string_witness :
  PyStr.encodable (lit "hello") ∧
  ∃ r, analyze_string (H := sample_unicode) (lit "hello") = Ok r
    ∧ Spec.sum_values (character_frequency_map r) = len (lit "hello")
    ∧ (∀ c, c ∈ lit "hello" →
         character_frequency_map r !! c = Some (Spec.occurrences c (lit "hello")))
    ∧ (∀ c, c ∉ lit "hello" → character_frequency_map r !! c = None)
    ∧ (∀ l, Spec.enumerates l (lit "hello") →
         size (character_frequency_map r) = List.length l).
Proof.
  assert (PyStr.encodable (lit "hello")) as He
    by (apply ascii_encodable; reflexivity).
  split; [exact He|].
  exact (frequency_map_partitions_string (H := sample_unicode) (lit "hello") He).
Defined.

Lemma word_count_counts_runs_witness :
  PyStr.encodable (lit "hello world") ∧
  ∃ r ws, analyze_string (H := sample_unicode) (lit "hello world") = Ok r
    ∧ Spec.runs (lit "hello world") ws
    ∧ (∀ ws', Spec.runs (lit "hello world") ws' → ws' = ws)
    ∧ word_count r = len ws.
Proof.
  assert (PyStr.encodable (lit "hello world")) as He
    by (apply ascii_encodable; reflexivity).
  split; [exact He|].
  exact (proj1 (word_count_counts_runs (H := sample_unicode))
           (lit "hello world") He).
Defined.

Lemma length_and_unique_are_raw_witness :
  PyStr.encodable (lit "Aa a") ∧
  ∃ r, analyze_string (H := sample_unicode) (lit "Aa a") = Ok r
    ∧ length r = Z.of_nat (List.length (lit "Aa a"))
    ∧ unique_characters r = len (remove_dups (lit "Aa a"))
    ∧ ∀ l, Spec.enumerates l (lit "Aa a") → unique_characters r = len l.
Proof.
  assert (PyStr.encodable (lit "Aa a")) as He
    by (apply ascii_encodable; reflexivity).
  split; [exact He|].
  exact (proj1 (length_and_unique_are_raw (H := sample_unicode))
           (lit "Aa a") He).
Defined.

Lemma unique_count_matches_frequency_keys_witness :
  PyStr.encodable (lit "banana") ∧
  ∃ r, analyze_string (H := sample_unicode) (lit "banana") = Ok r
    ∧ unique_characters r = Z.of_nat (size (character_frequency_map r))
    ∧ dom (character_frequency_map r) = list_to_set (lit "banana").
Proof.
  assert (PyStr.encodable (lit "banana")) as He
    by (apply ascii_encodable; reflexivity).
  split; [exact He|].
  exact (unique_count_matches_frequency_keys (H := sample_unicode)
           (lit "banana") He).
Defined.

(** C1, C4, C7, C8 and C10 as the design document states them, for every
    string, fail on a string with a lone surrogate: [value.encode()]
    raises before the dictionary is built, so there is no result whose
    field could have the stated value. *)
Lemma palindrome_undefined_on_lone_surrogate :
  [0xD800]%N = rev [0xD800]%N
  ∧ analyze_string (H := sample_unicode) [0xD800]%N = Raise UnicodeEncodeError
  ∧ ¬ ∃ r, analyze_string (H := sample_unicode) [0xD800]%N = Ok r
         ∧ (is_palindrome r = true ↔
            PyStr.lower (H := sample_unicode) (Spec.without_spaces [0xD800]%N)
            = rev (PyStr.lower (H := sample_unicode)
                     (Spec.without_spaces [0xD800]%N))).
Proof.
  split; [reflexivity|]. split; [vm_compute; reflexivity|].
  intros (r & Hr & _). vm_compute in Hr. discriminate Hr.
Qed.

Lemma frequency_map_undefined_on_lone_surrogate :
  analyze_string (H := sample_unicode) [97; 0xDC00; 97]%N
    = Raise UnicodeEncodeError
  ∧ ¬ ∃ r, analyze_string (H := sample_unicode) [97; 0xDC00; 97]%N = Ok r
         ∧ Spec.sum_values (character_frequency_map r) = 3
         ∧ character_frequency_map r !! 97%N = Some 2.
Proof.
  split; [vm_compute; reflexivity|].
  intros (r & Hr & _). vm_compute in Hr. discriminate Hr.
Qed.

Lemma word_count_undefined_on_lone_surrogate :
  Spec.runs [104; 105; 32; 0xDFFF]%N [[104; 105]; [0xDFFF]]%N
  ∧ word_count <$> analyze_string (H := sample_unicode) [104; 105; 32; 0xDFFF]%N
    = Raise UnicodeEncodeError
  ∧ word_count <$> analyze_string (H := sample_unicode) [104; 105; 32; 0xDFFF]%N
    ≠ Ok 2.
Proof.
  split; [|split; [vm_compute; reflexivity|by vm_compute]].
  exact (split_runs [104; 105; 32; 0xDFFF]%N).
Qed.

Lemma length_unique_undefined_on_lone_surrogate :
  len [65; 97; 0xDC00]%N = 3
  ∧ len (remove_dups [65; 97; 0xDC00]%N) = 3
  ∧ length <$> analyze_string (H := sample_unicode) [65; 97; 0xDC00]%N
    = Raise UnicodeEncodeError
  ∧ length <$> analyze_string (H := sample_unicode) [65; 97; 0xDC00]%N ≠ Ok 3
  ∧ unique_characters <$> analyze_string (H := sample_unicode) [65; 97; 0xDC00]%N
    ≠ Ok 3.
Proof.
  split; [reflexivity|]. split; [vm_compute; reflexivity|].
  split; [vm_compute; reflexivity|]. split; by vm_compute.
Qed.

Lemma unique_vs_keys_undefined_on_lone_surrogate :
  analyze_string (H := sample_unicode) [98; 0xDBFF]%N = Raise UnicodeEncodeError
  ∧ ¬ ∃ r, analyze_string (H := sample_unicode) [98; 0xDBFF]%N = Ok r
         ∧ unique_characters r = Z.of_nat (size (character_frequency_map r)).
Proof.
  split; [vm_compute; reflexivity|].
  intros (r & Hr & _). vm_compute in Hr. discriminate Hr.
Qed.

Lemma filter_set_20_5 :
  Spec.is_filter_set {[ "min_length" := VInt 20; "max_length" := VInt 5 ]}.
Proof.
  intros k v Hkv.
  destruct (decide (k = "min_length")) as [->|];
    [by simplify_map_eq|].
  destruct (decide (k = "max_length")) as [->|];
    by simplify_map_eq.
Qed.

Lemma conflict_iff_min_exceeds_max_witness :
  Spec.is_filter_set {[ "min_length" := VInt 20; "max_length" := VInt 5 ]} ∧
  ∃ report,
    validate_parsed_filters {[ "min_length" := VInt 20; "max_length" := VInt 5 ]}
      = Ok report ∧
    (report ≠ None ↔
     ∃ lo hi,
       ({[ "min_length" := VInt 20; "max_length" := VInt 5 ]}
          : gmap string value) !! "min_length" = Some (VInt lo)
       ∧ ({[ "min_length" := VInt 20; "max_length" := VInt 5 ]}
          : gmap string value) !! "max_length" = Some (VInt hi)
       ∧ lo > hi).
Proof.
  split; [exact filter_set_20_5|].
  exact (proj1 conflict_iff_min_exceeds_max _ filter_set_20_5).
Defined.



(** C5 as the design document states it fails on a query with both "longer than 10"
    and "at least 3": the call returns, and [min_length] is 3, not 11. *)
Lemma longer_than_overwritten_by_at_least :
  Spec.numeral_after (H := sample_unicode) (lit "longer than ")
    (PyStr.lower (H := sample_unicode) (lit "strings longer than 10 or at least 3"))
    = Some (lit "10")
  ∧ PyStr.int_call (H := sample_unicode) (H0 := default_interpreter) (lit "10")
    = Ok 10
  ∧ parse_natural_language_query_call (H := sample_unicode)
      (H0 := default_interpreter) (lit "strings longer than 10 or at least 3")
    = Ok {[ "min_length" := VInt 3 ]}
  ∧ (λ f, f !! "min_length") <$>
      parse_natural_language_query_call (H := sample_unicode)
        (H0 := default_interpreter) (lit "strings longer than 10 or at least 3")
    ≠ Ok (Some (VInt (10 + 1))).
Proof. repeat split; [vm_compute; reflexivity..|]. by vm_compute. Qed.

(** C6 as the design document states it fails on its own query: the letter pattern
    does match there and binds "f"; without the word "vowel" the same
    text yields [contains_character = 'f']. *)
Lemma letter_pattern_matches_before_first_vowel :
  group <$> search (H := sample_unicode) re_letter
    (PyStr.lower (H := sample_unicode)
       (lit "palindromic strings that contain the first vowel"))
  = Some (lit "f")
  ∧ parse_natural_language_query (H := sample_unicode)
      (lit "palindromic strings that contain the first") !! "contains_character"
    = Some (VStr (lit "f")).
Proof. split; by vm_compute. Qed.

End Instances.

(** * Further properties of the analyzer *)

Section AnalyzerMore.
Context `{UnicodeData}.
Import Analyzer.

Lemma analyze_string_inv (s : str) (r : properties) :
  analyze_string s = Ok r →
  PyStr.encodable s
  ∧ length r = len s
  ∧ is_palindrome r =
      bool_decide (PyStr.lower (Spec.without_spaces s)
                   = rev (PyStr.lower (Spec.without_spaces s)))
  ∧ unique_characters r = Z.of_nat (size (list_to_set s : gset N))
  ∧ word_count r = len (PyStr.split s)
  ∧ character_frequency_map r = count_chars s
  ∧ ∃ bs, PyStr.encode s = Ok bs ∧ sha256_hash r = Sha256.hexdigest bs.
Proof.
  intros Hr.
  destruct (decide (PyStr.encodable s)) as [Hs|Hs].
  - split; [done|].
    destruct (analyze_string_returns s Hs) as (r' & Hr' & Hl & Hp & Hrest).
    assert (r' = r) as -> by congruence.
    rewrite replace_space in Hp. done.
  - rewrite (analyze_string_raises s Hs) in Hr. done.
Qed.

(** ** The hash *)

Lemma round_length (st : list Z) (kw : Z * Z) :
  List.length (Sha256.round st kw) = List.length st.
Proof.
  unfold Sha256.round.
  do 9 (destruct st as [|? st]; try reflexivity).
Qed.

Lemma compress_length (h block : list Z) :
  List.length (Sha256.compress h block) = List.length h.
Proof.
  unfold Sha256.compress. rewrite length_zip_with.
  assert (∀ l st, List.length (foldl Sha256.round st l) = List.length st) as Hf.
  { induction l as [|kw l IH]; intros st; simpl; [done|].
    by rewrite IH, round_length. }
  rewrite Hf. lia.
Qed.

Lemma be_bytes_length (n : nat) (x : Z) : List.length (Sha256.be_bytes n x) = n.
Proof. unfold Sha256.be_bytes. by rewrite length_map, length_rev, length_seq. Qed.

Lemma be_bytes_range (n : nat) (x : Z) :
  Forall (λ b, 0 ≤ b < 256) (Sha256.be_bytes n x).
Proof.
  unfold Sha256.be_bytes. apply Forall_forall. intros b Hb.
  apply list_elem_of_In, in_map_iff in Hb as (i & <- & _).
  change 255 with (Z.ones 8). rewrite Z.land_ones by lia.
  apply Z.mod_pos_bound. lia.
Qed.

Lemma digest_length (msg : list Z) : List.length (Sha256.digest msg) = 32%nat.
Proof.
  unfold Sha256.digest. cbv zeta.
  set (bl := Sha256.blocks _ _). clearbody bl.
  assert (∀ h, List.length (foldl Sha256.compress h bl) = List.length h) as Hf.
  { induction bl as [|b bl IH]; intros h; simpl; [done|].
    by rewrite IH, compress_length. }
  assert (∀ h : list Z, List.length (flat_map (Sha256.be_bytes 4) h)
                        = (4 * List.length h)%nat) as Hb.
  { induction h as [|x h IH]; [done|].
    cbn [flat_map]. rewrite length_app, be_bytes_length, IH. simpl. lia. }
  rewrite Hb, Hf. reflexivity.
Qed.

Lemma digest_range (msg : list Z) : Forall (λ b, 0 ≤ b < 256) (Sha256.digest msg).
Proof.
  unfold Sha256.digest. cbv zeta.
  set (h := foldl _ _ _). clearbody h.
  induction h as [|x h IH]; [constructor|]. cbn [flat_map].
  apply Forall_app. split; [apply be_bytes_range|exact IH].
Qed.

Lemma hex_digit_range (d : Z) :
  0 ≤ d < 16 →
  (48 ≤ Sha256.hex_digit d ≤ 57 ∨ 97 ≤ Sha256.hex_digit d ≤ 102)%N.
Proof. intros Hd. unfold Sha256.hex_digit. destruct (d <? 10) eqn:Hlt; lia. Qed.

Lemma hexdigest_shape (msg : list Z) :
  List.length (Sha256.hexdigest msg) = 64%nat
  ∧ Forall (λ c, (48 ≤ c ≤ 57 ∨ 97 ≤ c ≤ 102)%N) (Sha256.hexdigest msg).
Proof.
  unfold Sha256.hexdigest.
  pose proof (digest_length msg) as Hl. pose proof (digest_range msg) as Hr.
  set (d := Sha256.digest msg) in *. clearbody d. split.
  - assert (∀ l : list Z,
              List.length (flat_map (λ b, [Sha256.hex_digit (Z.shiftr b 4);
                                           Sha256.hex_digit (Z.land b 0xF)]) l)
              = (2 * List.length l)%nat) as Hf.
    { induction l as [|b l IH]; simpl; [done|]. rewrite IH. lia. }
    rewrite Hf, Hl. reflexivity.
  - clear Hl. induction Hr as [|b l Hb _ IH]; [constructor|].
    cbn [flat_map app].
    constructor; [|constructor; [|exact IH]]; apply hex_digit_range.
    + rewrite Z.shiftr_div_pow2 by lia. change (2 ^ 4) with 16.
      split; [apply Z.div_pos; lia | apply Z.div_lt_upper_bound; lia].
    + change 15 with (Z.ones 4). rewrite Z.land_ones by lia.
      apply Z.mod_pos_bound. lia.
Qed.

(** ** Reordering *)

Lemma occurrences_perm (c : char) (s1 s2 : str) :
  s1 ≡ₚ s2 → Spec.occurrences c s1 = Spec.occurrences c s2.
Proof.
  induction 1 as [|x l1 l2 _ IH|x y l|l1 l2 l3 _ IH1 _ IH2].
  - done.
  - by rewrite !occurrences_cons, IH.
  - rewrite !occurrences_cons. lia.
  - congruence.
Qed.

Lemma count_chars_perm (s1 s2 : str) :
  s1 ≡ₚ s2 → count_chars s1 = count_chars s2.
Proof.
  intros Hp. apply map_eq. intros c. rewrite !count_chars_lookup.
  rewrite (occurrences_perm c s1 s2 Hp).
  destruct (decide (c ∈ s1)) as [H1|H1], (decide (c ∈ s2)) as [H2|H2]; try done.
  - destruct H2. by rewrite <- Hp.
  - destruct H1. by rewrite Hp.
Qed.

Lemma occurrences_eq_perm (s1 s2 : str) :
  (∀ c, Spec.occurrences c s1 = Spec.occurrences c s2) → s1 ≡ₚ s2.
Proof.
  revert s2. induction s1 as [|x s1 IH]; intros s2 Hc.
  - destruct s2 as [|y s2]; [done|].
    specialize (Hc y). rewrite occurrences_cons, decide_True in Hc by done.
    pose proof (occurrences_nonneg y s2).
    unfold Spec.occurrences at 1 in Hc. unfold len in Hc. simpl in Hc. lia.
  - assert (x ∈ s2) as Hx.
    { apply occurrences_pos. rewrite <- Hc.
      rewrite occurrences_cons, decide_True by done.
      pose proof (occurrences_nonneg x s1). lia. }
    apply elem_of_Permutation in Hx as [s2' Hs2].
    rewrite Hs2. constructor. apply IH. intros c.
    specialize (Hc c). rewrite (occurrences_perm c s2 _ Hs2) in Hc.
    rewrite !occurrences_cons in Hc. lia.
Qed.

Lemma count_chars_occurrences (s : str) (c : char) :
  default 0 (count_chars s !! c) = Spec.occurrences c s.
Proof.
  rewrite count_chars_lookup.
  destruct (decide (c ∈ s)) as [Hin|Hin]; [done|]. simpl.
  pose proof (occurrences_pos c s). pose proof (occurrences_nonneg c s).
  destruct (decide (Spec.occurrences c s = 0)); [lia|].
  destruct Hin. apply H0. lia.
Qed.

(** ** Words *)

Lemma runs_count_bound (s : str) (ws : list str) :
  Spec.runs s ws →
  (2 * List.length ws ≤ List.length s + 1)%nat
  ∧ (Spec.at_boundary s → (2 * List.length ws ≤ List.length s)%nat).
Proof.
  induction 1 as [s Hs | pre w rest ws Hpre Hne Hw Hb Hr [_ IH]].
  - simpl. lia.
  - specialize (IH Hb). rewrite !length_app. simpl.
    destruct w as [|x w]; [done|]. simpl. split; [lia|].
    intros Hbs. destruct pre as [|p pre]; simpl in *; [|lia].
    apply Forall_cons in Hw as [Hx _]. congruence.
Qed.

Lemma runs_none_iff_blank (s : str) :
  Spec.runs s [] ↔ Forall (λ c, PyStr.isspace c = true) s.
Proof.
  split; [|apply Spec.runs_blank].
  inversion 1; done.
Qed.

Lemma split_from_app_space (cur s1 s2 : str) (sp : char) :
  PyStr.isspace sp = true →
  PyStr.split_from cur (s1 ++ sp :: s2)
  = PyStr.split_from cur s1 ++ PyStr.split s2.
Proof.
  intros Hsp. revert cur. induction s1 as [|c s1 IH]; intros cur.
  - simpl. rewrite Hsp. by destruct cur.
  - simpl. destruct (PyStr.isspace c); [|apply IH].
    destruct cur; [apply IH|]. simpl. by rewrite IH.
Qed.

Lemma ascii_lower_is_ascii (s : str) :
  forallb PyStr.is_ascii s = true →
  forallb PyStr.is_ascii (List.map PyStr.ascii_lower s) = true.
Proof.
  induction s as [|c s IH]; [done|]. simpl.
  intros [Hc Hs]%andb_true_iff. rewrite IH by done.
  rewrite andb_true_r. unfold PyStr.is_ascii, PyStr.ascii_lower in *.
  apply N.ltb_lt in Hc. apply N.ltb_lt.
  destruct ((65 <=? c) && (c <=? 90))%N eqn:Hr; [|done].
  apply andb_true_iff in Hr as [_ ?%N.leb_le]. lia.
Qed.

Lemma ascii_filter (f : char → bool) (s : str) :
  forallb PyStr.is_ascii s = true →
  forallb PyStr.is_ascii (List.filter f s) = true.
Proof.
  induction s as [|c s IH]; [done|]. simpl.
  intros [Hc Hs]%andb_true_iff. destruct (f c); simpl; [rewrite Hc|]; auto.
Qed.

Lemma ascii_rev (s : str) :
  forallb PyStr.is_ascii (rev s) = forallb PyStr.is_ascii s.
Proof.
  induction s as [|c s IH]; [done|]. simpl.
  rewrite forallb_app, IH. simpl. rewrite andb_true_r. apply andb_comm.
Qed.

Lemma lower_ascii (s : str) :
  forallb PyStr.is_ascii s = true →
  PyStr.lower s = List.map PyStr.ascii_lower s.
Proof. intros Hs. unfold PyStr.lower. by rewrite Hs. Qed.

Lemma ascii_is_encodable (s : str) :
  forallb PyStr.is_ascii s = true → PyStr.encodable s.
Proof.
  intros Hs. apply Forall_forall. intros c Hc.
  rewrite forallb_forall in Hs.
  assert (PyStr.is_ascii c = true) as Ha by (apply Hs; by apply list_elem_of_In).
  unfold PyStr.is_ascii in Ha. apply N.ltb_lt in Ha.
  unfold PyStr.utf8_char. cbv zeta.
  destruct (Z.of_N c <? 128) eqn:Hlt; [by eexists|].
  apply Z.ltb_ge in Hlt. lia.
Qed.

End AnalyzerMore.

Section AnalyzerBehaviour.
Context `{UnicodeData}.
Import Analyzer.

Lemma utf8_char_some (c : char) :
  is_Some (PyStr.utf8_char c) ↔ (c < 0xD800 ∨ 0xDFFF < c ≤ 0x10FFFF)%N.
Proof.
  unfold PyStr.utf8_char. cbv zeta.
  destruct (Z.of_N c <? 128) eqn:H1; [split; [lia|by eexists]|].
  destruct (Z.of_N c <? 2048) eqn:H2; [split; [lia|by eexists]|].
  destruct ((55296 <=? Z.of_N c) && (Z.of_N c <=? 57343)) eqn:H3.
  { apply andb_true_iff in H3 as [?%Z.leb_le ?%Z.leb_le].
    split; [by intros [? ?]|lia]. }
  apply andb_false_iff in H3.
  destruct (Z.of_N c <? 65536) eqn:H4.
  { split; [|by eexists]. intros _.
    apply Z.ltb_lt in H4. destruct H3 as [?%Z.leb_gt|?%Z.leb_gt]; lia. }
  destruct (Z.of_N c <? 1114112) eqn:H5.
  { split; [|by eexists]. intros _.
    apply Z.ltb_ge in H4. apply Z.ltb_lt in H5. lia. }
  split; [by intros [? ?]|]. apply Z.ltb_ge in H5. lia.
Qed.

Lemma isspace_encodable (c : char) :
  PyStr.isspace c = true → is_Some (PyStr.utf8_char c).
Proof.
  intros Hc. apply utf8_char_some. left.
  unfold PyStr.isspace in Hc.
  repeat (apply orb_true_iff in Hc as [Hc|Hc]);
    repeat match goal with
      | H : (_ && _)%bool = true |- _ => apply andb_true_iff in H as [? ?]
      | H : (_ <=? _)%N = true |- _ => apply N.leb_le in H
      | H : (_ =? _)%N = true |- _ => apply N.eqb_eq in H
      end; lia.
Qed.

Lemma size_list_to_set_le (s : str) :
  (size (list_to_set s : gset N) ≤ List.length s)%nat.
Proof.
  induction s as [|c s IH]; [done|].
  rewrite list_to_set_cons, size_union_alt, size_singleton. simpl.
  assert (size (list_to_set s ∖ {[c]} : gset N) ≤ size (list_to_set s : gset N))%nat
    by (apply subseteq_size, subseteq_difference_l; done).
  lia.
Qed.

Lemma occurrences_le (c : char) (s : str) : Spec.occurrences c s ≤ len s.
Proof.
  induction s as [|x s IH]; [done|].
  rewrite occurrences_cons. unfold len in *. rewrite length_cons.
  destruct (decide (x = c)); lia.
Qed.

(** X1. [analyze_string] fails exactly on the strings that hold a
    surrogate code point (U+D800 to U+DFFF), with [UnicodeEncodeError];
    on every other string it returns. *)
Theorem analyze_string_fails_exactly_on_surrogates (s : str) :
  Forall (λ c, c ≤ 0x10FFFF)%N s →
  (analyze_string s = Raise UnicodeEncodeError
   ↔ Exists (λ c, 0xD800 ≤ c ≤ 0xDFFF)%N s)
  ∧ ((∃ r, analyze_string s = Ok r)
     ↔ Forall (λ c, c < 0xD800 ∨ 0xDFFF < c)%N s).
Proof.
  intros Hrange.
  assert (PyStr.encodable s ↔ Forall (λ c, c < 0xD800 ∨ 0xDFFF < c)%N s) as Henc.
  { unfold PyStr.encodable. rewrite !Forall_forall. split; intros Hs c Hc.
    - apply Hs, utf8_char_some in Hc as Hc'. lia.
    - apply utf8_char_some. rewrite Forall_forall in Hrange.
      specialize (Hs c Hc). specialize (Hrange c Hc). lia. }
  assert (Exists (λ c, 0xD800 ≤ c ≤ 0xDFFF)%N s
          ↔ ¬ Forall (λ c, c < 0xD800 ∨ 0xDFFF < c)%N s) as Hex.
  { split.
    - intros (c & Hc & Hsur)%Exists_exists Hall.
      rewrite Forall_forall in Hall. specialize (Hall c Hc). lia.
    - intros Hn. apply not_Forall_Exists in Hn; [|intros c; apply _].
      eapply Exists_impl; [exact Hn|]. intros c. simpl. lia. }
  rewrite Hex, <- Henc. split; split.
  - intros Hr Hs. destruct (analyze_string_returns s Hs) as (r & Hr' & _).
    congruence.
  - apply analyze_string_raises.
  - intros [r Hr]. by apply analyze_string_inv in Hr as [? _].
  - intros Hs. destruct (analyze_string_returns s Hs) as (r & Hr & _). eauto.
Qed.

(** X2. The hash of a result is always 64 characters long, each a digit
    or a letter from a to f (lowercase hexadecimal). *)
Theorem sha256_hash_is_64_lowercase_hex (s : str) (r : properties) :
  analyze_string s = Ok r →
  List.length (sha256_hash r) = 64%nat
  ∧ Forall (λ c, (48 ≤ c ≤ 57 ∨ 97 ≤ c ≤ 102)%N) (sha256_hash r).
Proof.
  intros (_ & _ & _ & _ & _ & _ & bs & _ & ->)%analyze_string_inv.
  apply hexdigest_shape.
Qed.

(** X3. Two strings have the same [character_frequency_map] exactly when
    one is a reordering of the other, and then they also have the same
    [length] and the same [unique_characters]. *)
Theorem frequency_map_identifies_anagrams (s1 s2 : str) (r1 r2 : properties) :
  analyze_string s1 = Ok r1 → analyze_string s2 = Ok r2 →
  (character_frequency_map r1 = character_frequency_map r2 ↔ s1 ≡ₚ s2)
  ∧ (s1 ≡ₚ s2 →
     length r1 = length r2 ∧ unique_characters r1 = unique_characters r2).
Proof.
  intros (_ & Hl1 & _ & Hu1 & _ & Hm1 & _)%analyze_string_inv
         (_ & Hl2 & _ & Hu2 & _ & Hm2 & _)%analyze_string_inv.
  rewrite Hm1, Hm2, Hl1, Hl2, Hu1, Hu2. split; [split|].
  - intros Heq. apply occurrences_eq_perm. intros c.
    by rewrite <- !count_chars_occurrences, Heq.
  - apply count_chars_perm.
  - intros Hp. split.
    + unfold len. by rewrite Hp.
    + do 2 f_equal. apply set_eq. intros c.
      by rewrite !elem_of_list_to_set, Hp.
Qed.

(** X4. For an ASCII string, reading it backwards does not change
    [is_palindrome], and the string followed by its reverse is always a
    palindrome. *)
Theorem palindrome_of_reversed_ascii (s : str) :
  forallb PyStr.is_ascii s = true →
  ∃ r r' r'',
    analyze_string s = Ok r
    ∧ analyze_string (rev s) = Ok r'
    ∧ analyze_string (s ++ rev s) = Ok r''
    ∧ is_palindrome r' = is_palindrome r
    ∧ is_palindrome r'' = true.
Proof.
  intros Hs.
  assert (forallb PyStr.is_ascii (rev s) = true) as Hrev by by rewrite ascii_rev.
  assert (forallb PyStr.is_ascii (s ++ rev s) = true) as Happ
    by (rewrite forallb_app, Hs, Hrev; done).
  destruct (analyze_string_returns s (ascii_is_encodable s Hs)) as (r & Hr & _).
  destruct (analyze_string_returns _ (ascii_is_encodable _ Hrev)) as (r' & Hr' & _).
  destruct (analyze_string_returns _ (ascii_is_encodable _ Happ)) as (r'' & Hr'' & _).
  exists r, r', r''. repeat split; try done.
  - apply analyze_string_inv in Hr as (_ & _ & -> & _).
    apply analyze_string_inv in Hr' as (_ & _ & -> & _).
    unfold Spec.without_spaces. rewrite List.filter_rev.
    rewrite !lower_ascii by (try rewrite ascii_rev; by apply ascii_filter).
    rewrite List.map_rev, rev_involutive.
    apply bool_decide_ext. split; intros Heq; [by rewrite <- Heq at 1|done].
  - apply analyze_string_inv in Hr'' as (_ & _ & -> & _).
    apply bool_decide_eq_true.
    unfold Spec.without_spaces. rewrite List.filter_app, List.filter_rev.
    rewrite lower_ascii.
    2: { rewrite forallb_app, ascii_rev. rewrite ascii_filter by done. done. }
    by rewrite List.map_app, List.map_rev, rev_app_distr, rev_involutive.
Qed.

(** X5. The numbers of a result bound each other: there are at most as
    many distinct characters as characters, at most one word per two
    characters (rounded up), and every count in the frequency map lies
    between 1 and the length. *)
Theorem analysis_bounds (s : str) (r : properties) :
  analyze_string s = Ok r →
  0 ≤ unique_characters r ≤ length r
  ∧ 0 ≤ word_count r ∧ 2 * word_count r ≤ length r + 1
  ∧ (unique_characters r = 0 ↔ s = [])
  ∧ ∀ c n, character_frequency_map r !! c = Some n → 1 ≤ n ≤ length r.
Proof.
  intros (_ & -> & _ & -> & -> & -> & _)%analyze_string_inv.
  pose proof (size_list_to_set_le s).
  destruct (runs_count_bound s _ (split_runs s)) as [Hw _].
  unfold len. repeat split; try lia.
  - intros Hz. assert (size (list_to_set s : gset N) = 0%nat) as Hz' by lia.
    apply size_empty_iff in Hz'. destruct s as [|c s]; [done|]. set_solver.
  - by intros ->.
  - rewrite count_chars_lookup in H1. destruct (decide (c ∈ s)) as [Hc|]; [|done].
    injection H1 as <-. apply occurrences_pos in Hc. lia.
  - rewrite count_chars_lookup in H1. destruct (decide (c ∈ s)); [|done].
    injection H1 as <-. apply occurrences_le.
Qed.

(** X6. [word_count] is 0 exactly for the strings made of whitespace
    only, the empty string among them. *)
Theorem word_count_zero_iff_blank (s : str) (r : properties) :
  analyze_string s = Ok r →
  (word_count r = 0 ↔ Forall (λ c, PyStr.isspace c = true) s).
Proof.
  intros (_ & _ & _ & _ & -> & _)%analyze_string_inv.
  rewrite <- runs_none_iff_blank. pose proof (split_runs s) as Hr.
  unfold len. split.
  - intros Hz. destruct (PyStr.split s); [done|simpl in Hz; lia].
  - intros Hb. by rewrite (runs_unique _ _ _ Hr Hb).
Qed.

(** X7. Analysing a concatenation: the lengths add up, the count of each
    character is the sum of its counts in the two parts, and the
    concatenation cannot have more distinct characters than the parts
    together. *)
Theorem analysis_of_concatenation (s1 s2 : str) (r1 r2 : properties) :
  analyze_string s1 = Ok r1 → analyze_string s2 = Ok r2 →
  ∃ r, analyze_string (s1 ++ s2) = Ok r
    ∧ length r = length r1 + length r2
    ∧ (∀ c, default 0 (character_frequency_map r !! c)
            = default 0 (character_frequency_map r1 !! c)
              + default 0 (character_frequency_map r2 !! c))
    ∧ unique_characters r ≤ unique_characters r1 + unique_characters r2.
Proof.
  intros (He1 & -> & _ & -> & _ & -> & _)%analyze_string_inv
         (He2 & -> & _ & -> & _ & -> & _)%analyze_string_inv.
  assert (PyStr.encodable (s1 ++ s2)) as He by by apply Forall_app.
  destruct (analyze_string_returns _ He) as (r & Hr & Hl & _ & Hu & _ & Hm & _).
  exists r. split; [done|]. rewrite Hl, Hu, Hm. repeat split.
  - unfold len. rewrite length_app. lia.
  - intros c. rewrite !count_chars_occurrences.
    unfold Spec.occurrences, len. rewrite List.filter_app, length_app. lia.
  - rewrite list_to_set_app_L, size_union_alt.
    assert (size (list_to_set s2 ∖ list_to_set s1 : gset N)
            ≤ size (list_to_set s2 : gset N))%nat
      by (apply subseteq_size, subseteq_difference_l; done).
    lia.
Qed.

(** X8. Joining two strings with one whitespace character adds their
    word counts. *)
Theorem word_count_of_joined (s1 s2 : str) (sp : char) (r1 r2 : properties) :
  PyStr.isspace sp = true →
  analyze_string s1 = Ok r1 → analyze_string s2 = Ok r2 →
  ∃ r, analyze_string (s1 ++ sp :: s2) = Ok r
    ∧ word_count r = word_count r1 + word_count r2.
Proof.
  intros Hsp (He1 & _ & _ & _ & -> & _)%analyze_string_inv
             (He2 & _ & _ & _ & -> & _)%analyze_string_inv.
  assert (PyStr.encodable (s1 ++ sp :: s2)) as He.
  { apply Forall_app. split; [done|]. constructor; [|done].
    by apply isspace_encodable. }
  destruct (analyze_string_returns _ He) as (r & Hr & _ & _ & _ & Hw & _).
  exists r. split; [done|]. rewrite Hw.
  unfold PyStr.split at 1. rewrite split_from_app_space by done.
  unfold len. rewrite length_app. fold (PyStr.split s1). lia.
Qed.

End AnalyzerBehaviour.

(** * Further properties of the parser *)

Section ParserBehaviour.
Context `{UnicodeData} `{Interpreter}.
Import Re NlpParser.

Lemma numeral_after_none_iff (phrase t : str) :
  Spec.numeral_after phrase t = None ↔
  ∀ d, PyStr.isdecimal d = true → ¬ Spec.occurs (phrase ++ [d]) t.
Proof.
  split.
  - intros Hn d Hd (pre & post & Ht).
    rewrite <- app_assoc in Ht. simpl in Ht.
    rewrite (numeral_after_none phrase t Hn pre d post Ht) in Hd. done.
  - intros Hno. destruct (Spec.numeral_after phrase t) as [ds|] eqn:Hds; [|done].
    destruct (group_digits _ _ _ Hds) as [Hne Hall].
    destruct (numeral_after_sound _ _ _ Hds) as (pre & post & Ht & _).
    destruct ds as [|d ds]; [done|]. apply Forall_cons in Hall as [Hd _].
    destruct (Hno d Hd). exists pre, (ds ++ post).
    rewrite Ht, <- !app_assoc. done.
Qed.

Lemma numeral_after_some_iff (phrase t : str) :
  is_Some (Spec.numeral_after phrase t) ↔
  ∃ d, PyStr.isdecimal d = true ∧ Spec.occurs (phrase ++ [d]) t.
Proof.
  split.
  - intros [ds Hds].
    destruct (group_digits _ _ _ Hds) as [Hne Hall].
    destruct (numeral_after_sound _ _ _ Hds) as (pre & post & Ht & _).
    destruct ds as [|d ds]; [done|]. apply Forall_cons in Hall as [Hd _].
    exists d. split; [done|]. exists pre, (ds ++ post).
    rewrite Ht, <- !app_assoc. done.
  - intros (d & Hd & Hocc).
    destruct (Spec.numeral_after phrase t) eqn:Hn; [done|].
    rewrite numeral_after_none_iff in Hn. by destruct (Hn d Hd).
Qed.

(** ** The letter pattern *)







(** ** Digits of an ASCII text *)

Lemma int_nonneg_ascii (ds : str) :
  forallb PyStr.is_ascii ds = true → 0 ≤ PyStr.int ds.
Proof.
  assert (∀ acc, 0 ≤ acc → forallb PyStr.is_ascii ds = true →
            0 ≤ foldl (λ n c, 10 * n + default 0 (PyStr.decimal_value c)) acc ds)
    as Hgen.
  { induction ds as [|d ds IH]; intros acc Hacc Hds; simpl; [done|].
    simpl in Hds. apply andb_true_iff in Hds as [Hd Hds].
    apply IH; [|done]. unfold PyStr.decimal_value. rewrite Hd.
    destruct ((48 <=? d) && (d <=? 57))%N eqn:Hr; simpl; [|lia].
    apply andb_true_iff in Hr as [?%N.leb_le _]. lia. }
  intros Hds. by apply Hgen.
Qed.

Lemma numeral_after_ascii (phrase t ds : str) :
  forallb PyStr.is_ascii t = true →
  Spec.numeral_after phrase t = Some ds → forallb PyStr.is_ascii ds = true.
Proof.
  intros Ht Hds.
  destruct (numeral_after_sound _ _ _ Hds) as (pre & post & -> & _).
  rewrite !forallb_app in Ht.
  apply andb_true_iff in Ht as [_ Ht]. apply andb_true_iff in Ht as [_ Ht].
  by apply andb_true_iff in Ht as [Ht _].
Qed.

Lemma lower_ascii_is_ascii (q : str) :
  forallb PyStr.is_ascii q = true →
  forallb PyStr.is_ascii (PyStr.lower q) = true.
Proof. intros Hq. rewrite lower_ascii by done. by apply ascii_lower_is_ascii. Qed.


(** X10. Whatever the query, the dictionary holds nothing but the five
    keys, and under them: a word count of 1, 2 or 3; the boolean true;
    integers for the two length bounds; one lowercase ASCII letter. *)
Theorem parsed_filters_shape (query : str) (k : string) (v : value) :
  parse_natural_language_query query !! k = Some v →
  (k = "word_count" ∧ (v = VInt 1 ∨ v = VInt 2 ∨ v = VInt 3))
  ∨ (k = "is_palindrome" ∧ v = VBool true)
  ∨ (k = "min_length" ∧ ∃ n, v = VInt n)
  ∨ (k = "max_length" ∧ ∃ n, v = VInt n)
  ∨ (k = "contains_character" ∧ ∃ c, v = VStr [c] ∧ (97 ≤ c ≤ 122)%N).
Proof.
  intros Hk.
  destruct (decide (k = "word_count")) as [->|].
  { left. split; [done|]. rewrite parse_word_count in Hk. cbv zeta in Hk.
    repeat match type of Hk with
           | context [if ?b then _ else _] => destruct b
           end; simplify_eq; auto. }
  destruct (decide (k = "is_palindrome")) as [->|].
  { right; left. split; [done|]. rewrite parse_is_palindrome in Hk.
    destruct (PyStr.contains _ _); by simplify_eq. }
  destruct (decide (k = "min_length")) as [->|].
  { do 2 right; left. split; [done|]. rewrite parse_min_length in Hk.
    cbv zeta in Hk.
    repeat match type of Hk with
           | context [match ?o with Some _ => _ | None => _ end] => destruct o
           end; simplify_eq; eauto. }
  destruct (decide (k = "max_length")) as [->|].
  { do 3 right; left. split; [done|]. rewrite parse_max_length in Hk.
    cbv zeta in Hk.
    repeat match type of Hk with
           | context [match ?o with Some _ => _ | None => _ end] => destruct o
           end; simplify_eq; eauto. }
  destruct (decide (k = "contains_character")) as [->|].
  { do 4 right. split; [done|]. rewrite parse_contains_character in Hk.
    cbv zeta in Hk.
    destruct (PyStr.contains (lit "last vowel") _).
    { injection Hk as <-. exists 117%N. split; [done|lia]. }
    destruct (PyStr.contains (lit "first vowel") _).
    { injection Hk as <-. exists 97%N. split; [done|lia]. }
    destruct (search re_letter _) as [m|] eqn:Hm; [|done].
    destruct (letter_match_group _ _ Hm) as (c & Hg & Hc).
    injection Hk as <-. exists c. unfold group. rewrite Hg. done. }
  by rewrite parse_other_keys in Hk.
Qed.

(** X11. The dictionary is empty exactly when nothing is recognised in
    the lowercased query: none of the six word-count phrases, neither
    "palindrom" nor a vowel phrase, no digit after any of the four length
    phrases, and no match of the letter pattern. *)
Theorem nothing_parsed_iff_nothing_recognised (query : str) :
  let t := PyStr.lower query in
  parse_natural_language_query query = ∅ ↔
    Forall (λ phrase, ¬ Spec.occurs (lit phrase) t)
      ["single word"; "one word"; "two word"; "2 word"; "three word"; "3 word";
       "palindrom"; "first vowel"; "last vowel"]
    ∧ Forall (λ phrase, ∀ d, PyStr.isdecimal d = true →
                             ¬ Spec.occurs (lit phrase ++ [d]) t)
        ["longer than "; "shorter than "; "at least "; "at most "]
    ∧ search re_letter t = None.
Proof.
  intros t. rewrite map_empty.
  rewrite !Forall_cons, !Forall_nil. rewrite <- !numeral_after_none_iff.
  rewrite <- !contains_occurs. fold t.
  split.
  - intros Hall.
    pose proof (Hall "word_count") as Hw. rewrite parse_word_count in Hw.
    pose proof (Hall "is_palindrome") as Hp. rewrite parse_is_palindrome in Hp.
    pose proof (Hall "min_length") as Hmin. rewrite parse_min_length in Hmin.
    pose proof (Hall "max_length") as Hmax. rewrite parse_max_length in Hmax.
    pose proof (Hall "contains_character") as Hc.
    rewrite parse_contains_character in Hc.
    cbv zeta in *. fold t in Hw, Hp, Hmin, Hmax, Hc.
    destruct (PyStr.contains (lit "single word") t); [done|].
    destruct (PyStr.contains (lit "one word") t); [done|].
    destruct (PyStr.contains (lit "two word") t); [done|].
    destruct (PyStr.contains (lit "2 word") t); [done|].
    destruct (PyStr.contains (lit "three word") t); [done|].
    destruct (PyStr.contains (lit "3 word") t); [done|].
    destruct (PyStr.contains (lit "palindrom") t); [done|].
    destruct (PyStr.contains (lit "last vowel") t); [done|].
    destruct (PyStr.contains (lit "first vowel") t); [done|].
    destruct (Spec.numeral_after (lit "at least ") t); [done|].
    destruct (Spec.numeral_after (lit "longer than ") t); [done|].
    destruct (Spec.numeral_after (lit "at most ") t); [done|].
    destruct (Spec.numeral_after (lit "shorter than ") t); [done|].
    destruct (search re_letter t); [done|].
    repeat split; done.
  - intros ((H1 & H2 & H3 & H4 & H5 & H6 & H7 & H8 & H9 & _)
            & (Hn1 & Hn2 & Hn3 & Hn4 & _) & Hs) k.
    apply not_true_is_false in H1, H2, H3, H4, H5, H6, H7, H8, H9.
    destruct (decide (k = "word_count")) as [->|].
    { rewrite parse_word_count. cbv zeta. fold t.
      by rewrite H1, H2, H3, H4, H5, H6. }
    destruct (decide (k = "is_palindrome")) as [->|].
    { rewrite parse_is_palindrome. fold t. by rewrite H7. }
    destruct (decide (k = "min_length")) as [->|].
    { rewrite parse_min_length. cbv zeta. fold t. by rewrite Hn3, Hn1. }
    destruct (decide (k = "max_length")) as [->|].
    { rewrite parse_max_length. cbv zeta. fold t. by rewrite Hn4, Hn2. }
    destruct (decide (k = "contains_character")) as [->|].
    { rewrite parse_contains_character. cbv zeta. fold t.
      by rewrite H9, H8, Hs. }
    by apply parse_other_keys.
Qed.

Lemma is_Some_first_of {A B C} (a : option A) (b : option B)
    (f : A → C) (g : B → C) :
  is_Some (match a with
           | Some x => Some (f x)
           | None => match b with Some y => Some (g y) | None => None end
           end)
  ↔ is_Some a ∨ is_Some b.
Proof.
  destruct a as [x|], b as [y|]; split; intros Hx;
    try (by eauto); try (by destruct Hx as [[? ?]|[? ?]]);
    by destruct Hx.
Qed.

(** X12. The call raises, and then it is [ValueError], exactly when a
    numeral is too long for [int]. In the dictionary it returns
    otherwise, a length bound is present exactly when the lowercased
    query has one of its two phrases directly followed by a decimal
    digit: "at least " or "longer than " for [min_length], "at most " or
    "shorter than " for [max_length]. *)
Theorem length_bound_present_iff_phrase_and_digit (query : str) :
  let t := PyStr.lower query in
  match parse_natural_language_query_call query with
  | Raise e => e = ValueError ∧ Spec.overlong_numeral t = true
  | Ok f =>
      Spec.overlong_numeral t = false
      ∧ (is_Some (f !! "min_length") ↔
         ∃ d, PyStr.isdecimal d = true
            ∧ (Spec.occurs (lit "at least " ++ [d]) t
               ∨ Spec.occurs (lit "longer than " ++ [d]) t))
      ∧ (is_Some (f !! "max_length") ↔
         ∃ d, PyStr.isdecimal d = true
            ∧ (Spec.occurs (lit "at most " ++ [d]) t
               ∨ Spec.occurs (lit "shorter than " ++ [d]) t))
  end.
Proof.
  intros t. rewrite parse_call_characterised. fold t.
  destruct (Spec.overlong_numeral t); [done|]. split; [done|].
  rewrite parse_min_length, parse_max_length. cbv zeta. fold t.
  rewrite !is_Some_first_of, !numeral_after_some_iff.
  split; split.
  - intros [(d & ? & ?)|(d & ? & ?)]; exists d; auto.
  - intros (d & ? & [?|?]); [left|right]; exists d; auto.
  - intros [(d & ? & ?)|(d & ? & ?)]; exists d; auto.
  - intros (d & ? & [?|?]); [left|right]; exists d; auto.
Qed.

(** X13. For an ASCII query the bounds have a floor: [min_length] is
    never negative and [max_length] is never below -1. *)
Theorem ascii_query_bounds_floor (query : str) :
  forallb PyStr.is_ascii query = true →
  (∀ n, parse_natural_language_query query !! "min_length" = Some (VInt n) → 0 ≤ n)
  ∧ (∀ n, parse_natural_language_query query !! "max_length" = Some (VInt n) → -1 ≤ n).
Proof.
  intros Hq. apply lower_ascii_is_ascii in Hq.
  rewrite parse_min_length, parse_max_length. cbv zeta.
  assert (∀ phrase ds, Spec.numeral_after phrase (PyStr.lower query) = Some ds →
                       0 ≤ PyStr.int ds) as Hint.
  { intros phrase ds Hds. apply int_nonneg_ascii.
    by eapply numeral_after_ascii. }
  split; intros n Hn.
  - destruct (Spec.numeral_after (lit "at least ") _) as [ds|] eqn:H1.
    { injection Hn as <-. by eapply Hint. }
    destruct (Spec.numeral_after (lit "longer than ") _) as [ds|] eqn:H2; [|done].
    injection Hn as <-. specialize (Hint _ _ H2). lia.
  - destruct (Spec.numeral_after (lit "at most ") _) as [ds|] eqn:H1.
    { injection Hn as <-. specialize (Hint _ _ H1). lia. }
    destruct (Spec.numeral_after (lit "shorter than ") _) as [ds|] eqn:H2; [|done].
    injection Hn as <-. specialize (Hint _ _ H2). lia.
Qed.

(** X14. Validating what the parser returns never raises, and it reports
    the conflict message exactly when both bounds were parsed and
    [min_length] exceeds [max_length]. *)
Theorem validate_after_parse (query : str) :
  ∃ report,
    validate_parsed_filters (parse_natural_language_query query) = Ok report
    ∧ (report = None ∨ report = Some conflict_message)
    ∧ (report = Some conflict_message ↔
       ∃ lo hi,
         parse_natural_language_query query !! "min_length" = Some (VInt lo)
         ∧ parse_natural_language_query query !! "max_length" = Some (VInt hi)
         ∧ lo > hi).
Proof.
  pose proof (parse_is_filter_set query) as Hf.
  set (f := parse_natural_language_query query) in *. clearbody f.
  unfold validate_parsed_filters.
  destruct (f !! "min_length") as [lo|] eqn:Hlo.
  2: { exists None. repeat split; auto; [done|]. by intros (? & ? & ? & _). }
  destruct (f !! "max_length") as [hi|] eqn:Hhi.
  2: { exists None. repeat split; auto; [done|]. by intros (? & ? & _ & ? & _). }
  destruct (filter_set_bound f "min_length" lo Hf) as [a ->]; [by left|done|].
  destruct (filter_set_bound f "max_length" hi Hf) as [b ->]; [by right|done|].
  simpl. destruct (b <? a) eqn:Hab.
  - eexists. split; [done|]. split; [by right|]. split; [|done].
    intros _. exists a, b. apply Z.ltb_lt in Hab. repeat split; lia.
  - exists None. split; [done|]. split; [by left|]. split; [done|].
    intros (lo & hi & [= <-] & [= <-] & Hgt). apply Z.ltb_ge in Hab. lia.
Qed.


End ParserBehaviour.

(** * The input validator *)

Section ValidatorBehaviour.
Context `{UnicodeData}.
Import Schemas.

Lemma lstrip_nil_iff (s : str) :
  lstrip s = [] ↔ Forall (λ c, PyStr.isspace c = true) s.
Proof.
  induction s as [|c s IH]; simpl.
  - split; [constructor|done].
  - destruct (PyStr.isspace c) eqn:Hc.
    + rewrite IH. split; [by constructor|by intros [_ ?]%Forall_cons].
    + split; [done|]. intros [? _]%Forall_cons. congruence.
Qed.

Lemma lstrip_blank_or_head (s : str) :
  Forall (λ c, PyStr.isspace c = true) (lstrip s) → lstrip s = [].
Proof.
  induction s as [|c s IH]; simpl; [done|].
  destruct (PyStr.isspace c) eqn:Hc; [exact IH|].
  intros [? _]%Forall_cons. congruence.
Qed.

Lemma strip_nil_iff (s : str) :
  strip s = [] ↔ Forall (λ c, PyStr.isspace c = true) s.
Proof.
  unfold strip. rewrite <- lstrip_nil_iff. split.
  - intros Hr. apply lstrip_blank_or_head.
    assert (lstrip (rev (lstrip s)) = []) as Hl
      by (apply (f_equal (@rev _)) in Hr; by rewrite rev_involutive in Hr).
    apply lstrip_nil_iff in Hl. rewrite <- (rev_involutive (lstrip s)).
    by apply Forall_rev.
  - intros ->. done.
Qed.

Lemma split_nil_iff_blank (s : str) :
  PyStr.split s = [] ↔ Forall (λ c, PyStr.isspace c = true) s.
Proof.
  rewrite <- runs_none_iff_blank. pose proof (split_runs s) as Hr. split.
  - intros Hs. by rewrite Hs in Hr.
  - intros Hb. by apply (runs_unique s).
Qed.

(** X16. The validator accepts a value, and returns it unchanged, exactly
    when it has a character that is not whitespace; the empty string and
    the strings of whitespace only are rejected with "value cannot be
    empty". *)
Theorem validator_accepts_iff_not_blank (v : str) :
  (value_must_not_be_empty v = Accept v
   ↔ Exists (λ c, PyStr.isspace c = false) v)
  ∧ (value_must_not_be_empty v
       = Reject (value_error (lit "value cannot be empty"))
     ↔ Forall (λ c, PyStr.isspace c = true) v)
  ∧ ∀ v', value_must_not_be_empty v = Accept v' → v' = v.
Proof.
  unfold value_must_not_be_empty.
  assert (Exists (λ c, PyStr.isspace c = false) v
          ↔ ¬ Forall (λ c, PyStr.isspace c = true) v) as Hex.
  { split.
    - intros (c & Hc & Hs)%Exists_exists Hall.
      rewrite Forall_forall in Hall. specialize (Hall c Hc). congruence.
    - intros Hn. apply not_Forall_Exists in Hn; [|intros c; apply _].
      eapply Exists_impl; [exact Hn|]. intros c. simpl.
      by destruct (PyStr.isspace c). }
  rewrite Hex.
  destruct (bool_decide (v = [])) eqn:He.
  { apply bool_decide_eq_true in He as ->. simpl.
    split; [|split]; [split| |]; try done.
    intros Hn. destruct Hn. constructor. }
  simpl. destruct (bool_decide (strip v = [])) eqn:Hs.
  - apply bool_decide_eq_true, strip_nil_iff in Hs.
    split; [|split]; [split| |]; done.
  - apply bool_decide_eq_false in Hs. rewrite strip_nil_iff in Hs.
    split; [|split]; [split|split|]; try done. by intros v' [= ->].
Qed.

(** X17. A value the validator accepts has at least one word, one
    character and one distinct character once analysed. *)
Theorem accepted_value_has_a_word (v v' : str) (r : Analyzer.properties) :
  value_must_not_be_empty v = Accept v' →
  Analyzer.analyze_string v' = Ok r →
  1 ≤ Analyzer.word_count r
  ∧ 1 ≤ Analyzer.length r
  ∧ 1 ≤ Analyzer.unique_characters r.
Proof.
  unfold value_must_not_be_empty.
  destruct (bool_decide (v = [])) eqn:He; [done|].
  destruct (bool_decide (strip v = [])) eqn:Hs; [done|].
  intros [= <-]. apply bool_decide_eq_false in He, Hs.
  rewrite strip_nil_iff in Hs.
  intros (_ & -> & _ & -> & -> & _)%analyze_string_inv.
  unfold len. repeat split.
  - destruct (PyStr.split v) eqn:Hsp; [|simpl; lia].
    apply split_nil_iff_blank in Hsp. done.
  - destruct v; [done|simpl; lia].
  - destruct v as [|c v]; [done|].
    assert (size (list_to_set (c :: v) : gset N) ≠ 0%nat); [|lia].
    apply size_non_empty_iff. set_solver.
Qed.

End ValidatorBehaviour.

(** * The handlers and the table *)

Section StoreFacts.
Context `{UnicodeData} `{DateTime}.
Import Main.

Lemma first_by_value_None (db : Db.table) (v : str) :
  Db.first_by_value db v = None ↔ v ∉ List.map Models.value db.
Proof.
  unfold Db.first_by_value. induction db as [|r db IH]; simpl.
  - split; [intros _ ?%elem_of_nil; done|done].
  - rewrite not_elem_of_cons. destruct (bool_decide (Models.value r = v)) eqn:Hr.
    + apply bool_decide_eq_true in Hr. split; [done|]. by intros [? _].
    + apply bool_decide_eq_false in Hr. rewrite IH. split; [|by intros [_ ?]].
      intros Hn. split; [congruence|done].
Qed.

Lemma first_by_value_Some (db : Db.table) (v : str) (r : Models.AnalyzedString) :
  Db.first_by_value db v = Some r → r ∈ db ∧ Models.value r = v.
Proof.
  unfold Db.first_by_value. intros [Hin Hv]%List.find_some.
  split; [by apply list_elem_of_In|by apply bool_decide_eq_true in Hv].
Qed.

Lemma first_by_value_is_Some (db : Db.table) (v : str) :
  v ∈ List.map Models.value db → is_Some (Db.first_by_value db v).
Proof.
  intros Hin. destruct (Db.first_by_value db v) eqn:Hf; [done|].
  by apply first_by_value_None in Hf.
Qed.

Lemma first_by_value_snoc (db : Db.table) (row : Models.AnalyzedString) (v : str) :
  Db.first_by_value (db ++ [row]) v =
  match Db.first_by_value db v with
  | Some r => Some r
  | None => if bool_decide (Models.value row = v) then Some row else None
  end.
Proof.
  unfold Db.first_by_value. induction db as [|r db IH]; simpl; [done|].
  by destruct (bool_decide (Models.value r = v)).
Qed.

Lemma first_by_value_filter (g : Models.AnalyzedString → bool)
    (db : Db.table) (v : str) :
  (∀ r, r ∈ db → Models.value r = v → g r = true) →
  Db.first_by_value (List.filter g db) v = Db.first_by_value db v.
Proof.
  unfold Db.first_by_value. induction db as [|r db IH]; intros Hg; [done|].
  simpl. destruct (bool_decide (Models.value r = v)) eqn:Hr.
  - apply bool_decide_eq_true in Hr.
    rewrite (Hg r) by (done || by left). simpl.
    by rewrite (bool_decide_eq_true_2 _ Hr).
  - destruct (g r); simpl; [rewrite Hr|]; apply IH;
      intros r' Hr'; apply Hg; by right.
Qed.

Lemma NoDup_map_inj {A B} (f : A → B) (l : list A) (x y : A) :
  NoDup (List.map f l) → x ∈ l → y ∈ l → f x = f y → x = y.
Proof.
  induction l as [|a l IH]; simpl; [by intros _ ?%elem_of_nil|].
  intros [Ha Hl]%NoDup_cons [->|Hx]%elem_of_cons [->|Hy]%elem_of_cons Hxy.
  - done.
  - destruct Ha. rewrite Hxy. by apply (list_elem_of_fmap_2 f).
  - destruct Ha. rewrite <- Hxy. by apply (list_elem_of_fmap_2 f).
  - by apply IH.
Qed.

Lemma NoDup_map_filter {A B} (f : A → B) (g : A → bool) (l : list A) :
  NoDup (List.map f l) → NoDup (List.map f (List.filter g l)).
Proof.
  induction l as [|a l IH]; simpl; [done|].
  intros [Ha Hl]%NoDup_cons. destruct (g a); simpl; [|by apply IH].
  apply NoDup_cons. split; [|by apply IH].
  intros (x & Hfx & Hx)%list_elem_of_fmap. apply Ha.
  rewrite Hfx. apply (list_elem_of_fmap_2 f).
  apply list_elem_of_In, List.filter_In in Hx as [Hx _].
  by apply list_elem_of_In.
Qed.

(** What [create_string] does, case by case. *)
Lemma create_string_cases (now : datetime) (v : str) (db : Db.table) :
  (∃ r, Db.first_by_value db v = Some r
        ∧ create_string now v db
          = (Abort {| status_code := 409;
                      detail_of := Text (lit "String already exists in the system") |},
             db))
  ∨ (∃ e, Db.first_by_value db v = None
          ∧ Analyzer.analyze_string v = Raise e
          ∧ create_string now v db
            = (Abort {| status_code := 500;
                        detail_of := TextAndError (lit "Internal server error: ")
                                       (AnalyzerError e) |},
               db))
  ∨ (∃ p, Db.first_by_value db v = None
          ∧ Analyzer.analyze_string v = Ok p
          ∧ Db.insert db (ServiceSpec.row_of v p now) = None
          ∧ create_string now v db
            = (Abort {| status_code := 500;
                        detail_of := TextAndError (lit "Internal server error: ")
                                       IntegrityError |},
               db))
  ∨ (∃ p, Db.first_by_value db v = None
          ∧ Analyzer.analyze_string v = Ok p
          ∧ Db.insert db (ServiceSpec.row_of v p now)
            = Some (db ++ [ServiceSpec.row_of v p now])
          ∧ create_string now v db
            = (Respond (Models.to_dict (ServiceSpec.row_of v p now)),
               db ++ [ServiceSpec.row_of v p now])).
Proof.
  unfold create_string. cbv zeta.
  destruct (Db.first_by_value db v) as [r|] eqn:Hf; [left; eauto|]. right.
  destruct (Analyzer.analyze_string v) as [p|e] eqn:Ha; [|left; eauto]. right.
  fold (ServiceSpec.row_of v p now).
  destruct (Db.insert db (ServiceSpec.row_of v p now)) as [db'|] eqn:Hi;
    [right|left; eauto].
  exists p. assert (db' = db ++ [ServiceSpec.row_of v p now]) as ->.
  { unfold Db.insert in Hi. destruct (existsb _ db); by simplify_eq. }
  done.
Qed.

Lemma insert_Some_fresh_id (db : Db.table) (row : Models.AnalyzedString) (db' : Db.table) :
  Db.insert db row = Some db' → Models.id row ∉ List.map Models.id db.
Proof.
  unfold Db.insert. destruct (existsb _ db) eqn:He; [done|]. intros _.
  intros (r & Hid & Hr)%list_elem_of_fmap.
  assert (existsb (λ r, bool_decide (Models.id r = Models.id row)
                        || bool_decide (Models.value r = Models.value row)) db = true)
    as Ht; [|congruence].
  apply existsb_exists. exists r. split; [by apply list_elem_of_In|].
  by rewrite (bool_decide_eq_true_2 _ (eq_sym Hid)).
Qed.

End StoreFacts.

Section HandlerBehaviour.
Context `{UnicodeData} `{DateTime}.
Import Main.

(** X18. [create_string] answers 409 exactly when the value is already
    stored, and a request that is aborted, with whatever status, leaves
    the table as it was. *)
Theorem create_string_conflict_and_rollback (now : datetime) (v : str)
    (db : Db.table) :
  (v ∈ List.map Models.value db ↔
   ∃ e, (create_string now v db).1 = Abort e ∧ status_code e = 409)
  ∧ ∀ e, (create_string now v db).1 = Abort e → (create_string now v db).2 = db.
Proof.
  destruct (create_string_cases now v db)
    as [(r & Hf & ->)|[(e & Hf & _ & ->)|[(p & Hf & _ & _ & ->)|(p & Hf & _ & _ & ->)]]];
    simpl; (split; [|by intros]).
  - split; [eauto|]. intros _.
    apply first_by_value_Some in Hf as [Hr <-].
    by apply (list_elem_of_fmap_2 Models.value).
  - apply first_by_value_None in Hf. split; [done|]. by intros (? & [= <-] & ?).
  - apply first_by_value_None in Hf. split; [done|]. by intros (? & [= <-] & ?).
  - apply first_by_value_None in Hf. split; [done|]. by intros (? & ? & _).
Qed.

(** X19. After [create_string] has answered with a record, [get_string]
    with the same value returns that record, creating the value again
    answers 409, every other value is looked up as before, and the
    record holds the analyzer's result with the hash as its id. *)
Theorem create_then_get (now : datetime) (v : str) (db db' : Db.table)
    (body : Schemas.StringResponse.t) :
  create_string now v db = (Respond body, db') →
  get_string v db' = Respond body
  ∧ (∀ now', ∃ e, create_string now' v db' = (Abort e, db')
                  ∧ status_code e = 409)
  ∧ (∀ v', v' ≠ v → get_string v' db' = get_string v' db)
  ∧ ∃ p, Analyzer.analyze_string v = Ok p
       ∧ Schemas.StringResponse.properties body = p
       ∧ Schemas.StringResponse.id body = Analyzer.sha256_hash p
       ∧ Schemas.StringResponse.value body = v.
Proof.
  destruct (create_string_cases now v db)
    as [(r & Hf & ->)|[(e & Hf & _ & ->)|[(p & Hf & _ & _ & ->)|(p & Hf & Ha & _ & ->)]]];
    try done.
  intros [= <- <-].
  assert (Db.first_by_value (db ++ [ServiceSpec.row_of v p now]) v
          = Some (ServiceSpec.row_of v p now)) as Hnew.
  { rewrite first_by_value_snoc, Hf. simpl. by rewrite bool_decide_eq_true_2. }
  repeat split.
  - unfold get_string. by rewrite Hnew.
  - intros now'. unfold create_string. cbv zeta. rewrite Hnew. eauto.
  - intros v' Hv'. unfold get_string. rewrite first_by_value_snoc.
    destruct (Db.first_by_value db v'); [done|]. simpl.
    by rewrite bool_decide_eq_false_2.
  - exists p. by destruct p.
Qed.

(** X20. A value with a surrogate code point that is not yet stored makes
    [create_string] answer 500, not 400 or 422: the analyzer's
    [UnicodeEncodeError] is caught by the general handler. The validator
    does not stop such a value. *)
Theorem create_string_unencodable_is_500 (now : datetime) (v : str)
    (db : Db.table) :
  ¬ PyStr.encodable v → v ∉ List.map Models.value db →
  create_string now v db
  = (Abort {| status_code := 500;
              detail_of := TextAndError (lit "Internal server error: ")
                             (AnalyzerError UnicodeEncodeError) |},
     db)
  ∧ (Exists (λ c, PyStr.isspace c = false) v →
     Schemas.value_must_not_be_empty v = Schemas.Accept v).
Proof.
  intros He Hv. split.
  - apply first_by_value_None in Hv.
    unfold create_string. cbv zeta.
    by rewrite Hv, (analyze_string_raises v He).
  - intros (c & Hc & Hs)%Exists_exists. unfold Schemas.value_must_not_be_empty.
    assert (¬ Forall (λ c, PyStr.isspace c = true) v) as Hn.
    { intros Hall. rewrite Forall_forall in Hall. specialize (Hall c Hc).
      congruence. }
    rewrite (bool_decide_eq_false_2 (v = [])).
    2: { intros ->. by apply elem_of_nil in Hc. }
    rewrite (bool_decide_eq_false_2 (Schemas.strip v = []));
      [done|by rewrite strip_nil_iff].
Qed.

Lemma create_string_consistent (now : datetime) (v : str) (db : Db.table) :
  ServiceSpec.consistent db → ServiceSpec.consistent (create_string now v db).2.
Proof.
  intros (Hv & Hi & Hrows).
  destruct (create_string_cases now v db)
    as [(r & Hf & ->)|[(e & Hf & _ & ->)|[(p & Hf & _ & _ & ->)|(p & Hf & Ha & Hins & ->)]]];
    simpl; try done.
  apply first_by_value_None in Hf. apply insert_Some_fresh_id in Hins.
  repeat split.
  - rewrite List.map_app. simpl. apply NoDup_app. repeat split; [done| |].
    + intros x Hx ?%list_elem_of_singleton. by subst.
    + apply NoDup_singleton.
  - rewrite List.map_app. simpl. apply NoDup_app. repeat split; [done| |].
    + intros x Hx ?%list_elem_of_singleton. by subst.
    + apply NoDup_singleton.
  - apply Forall_app. split; [done|]. constructor; [|constructor].
    exists p. done.
Qed.

Lemma delete_string_consistent (v : str) (db : Db.table) :
  ServiceSpec.consistent db → ServiceSpec.consistent (delete_string v db).2.
Proof.
  intros (Hv & Hi & Hrows).
  unfold delete_string. destruct (Db.first_by_value db v) as [r|]; simpl;
    [|done].
  unfold Db.delete. repeat split.
  - by apply NoDup_map_filter.
  - by apply NoDup_map_filter.
  - rewrite Forall_forall in Hrows. apply Forall_forall. intros x Hx.
    apply Hrows. apply list_elem_of_In, List.filter_In in Hx as [Hx _].
    by apply list_elem_of_In.
Qed.

Lemma empty_table_consistent : ServiceSpec.consistent ([] : Db.table).
Proof. repeat split; constructor. Qed.

(** X21. Consistency is an invariant: the empty table is consistent, and
    [create_string] and [delete_string] take a consistent table to a
    consistent table, whatever they answer. *)
Theorem table_stays_consistent (now : datetime) (v : str) (db : Db.table) :
  ServiceSpec.consistent ([] : Db.table)
  ∧ (ServiceSpec.consistent db →
     ServiceSpec.consistent (create_string now v db).2
     ∧ ServiceSpec.consistent (delete_string v db).2).
Proof.
  split; [apply empty_table_consistent|]. intros Hc.
  split; [by apply create_string_consistent|by apply delete_string_consistent].
Qed.

(** X22. [delete_string] answers 404 and changes nothing when the value
    is not stored. When it is stored, in a table where values and ids
    are unique, the answer is the empty 204, the value is gone
    afterwards, and every other value is looked up as before. *)
Theorem delete_string_behaviour (v : str) (db : Db.table) :
  NoDup (List.map Models.value db) → NoDup (List.map Models.id db) →
  (v ∉ List.map Models.value db →
   delete_string v db
   = (Abort {| status_code := 404;
               detail_of := Text (lit "String does not exist in the system") |},
      db))
  ∧ (v ∈ List.map Models.value db →
     ∃ db', delete_string v db = (Respond (), db')
       ∧ get_string v db'
         = Abort {| status_code := 404;
                    detail_of := Text (lit "String does not exist in the system") |}
       ∧ ∀ v', v' ≠ v → get_string v' db' = get_string v' db).
Proof.
  intros Hv Hi. split.
  - intros Hn. apply first_by_value_None in Hn. unfold delete_string.
    by rewrite Hn.
  - intros [r Hf]%first_by_value_is_Some. unfold delete_string. rewrite Hf.
    eexists. split; [done|].
    apply first_by_value_Some in Hf as [Hr Hrv]. unfold Db.delete. split.
    + unfold get_string.
      destruct (Db.first_by_value _ v) as [r'|] eqn:Hf'; [|done].
      apply first_by_value_Some in Hf' as [Hr' Hrv'].
      apply list_elem_of_In, List.filter_In in Hr' as [Hr' Hid].
      apply list_elem_of_In in Hr'.
      assert (r' = r) as -> by (eapply (NoDup_map_inj Models.value); [done..|congruence]).
      by rewrite bool_decide_eq_true_2 in Hid.
    + intros v' Hv'. unfold get_string. rewrite first_by_value_filter; [done|].
      intros r' Hr' Hrv'. apply negb_true_iff, bool_decide_eq_false. intros Hid.
      assert (r' = r) as -> by (by eapply (NoDup_map_inj Models.id)).
      congruence.
Qed.

(** X23. In a consistent table, what [get_string] returns for a value is
    what the analyzer computes for it: the six properties, and the hash
    as the id. *)
Theorem get_string_returns_the_analysis (v : str) (db : Db.table)
    (body : Schemas.StringResponse.t) :
  ServiceSpec.consistent db →
  get_string v db = Respond body →
  ∃ p, Analyzer.analyze_string v = Ok p
     ∧ Schemas.StringResponse.properties body = p
     ∧ Schemas.StringResponse.id body = Analyzer.sha256_hash p
     ∧ Schemas.StringResponse.value body = v.
Proof.
  intros (_ & _ & Hrows). unfold get_string.
  destruct (Db.first_by_value db v) as [r|] eqn:Hf; [|done].
  intros [= <-]. apply first_by_value_Some in Hf as [Hr Hrv].
  rewrite Forall_forall in Hrows. destruct (Hrows r Hr) as (p & Ha & Hrow).
  rewrite Hrv in Ha. exists p. split; [done|].
  rewrite Hrow. simpl. by destruct p.
Qed.

End HandlerBehaviour.

(** * Listing and filtering *)

Section FilterFacts.
Context `{UnicodeData} `{Interpreter} `{DateTime} `{Db.Driver}.
Import Main.

Lemma filter_filter {A} (f g : A → bool) (l : list A) :
  List.filter f (List.filter g l) = List.filter (λ x, g x && f x) l.
Proof.
  induction l as [|x l IH]; [done|]. simpl.
  destruct (g x); simpl; [destruct (f x)|]; by rewrite IH.
Qed.

Lemma filter_all {A} (f : A → bool) (l : list A) :
  (∀ x, f x = true) → List.filter f l = l.
Proof.
  intros Hf. induction l as [|x l IH]; [done|]. simpl. by rewrite Hf, IH.
Qed.

Lemma filter_none {A} (f : A → bool) (l : list A) :
  (∀ x, f x = false) → List.filter f l = [].
Proof.
  intros Hf. induction l as [|x l IH]; [done|]. simpl. by rewrite Hf, IH.
Qed.

Ltac same_rows :=
  rewrite ?filter_filter;
  first [ apply List.filter_ext | symmetry; apply filter_all ];
  intros ?; unfold ServiceSpec.satisfies; cbn [from_option];
  rewrite ?andb_true_r, ?andb_true_l, ?andb_assoc; reflexivity.

Ltac split_binds Hb :=
  unfold ServiceSpec.binds in Hb;
  cbn [from_option ServiceSpec.int_of] in Hb;
  revert Hb;
  repeat match goal with
         | |- context [Db.bindable ?x] => destruct (Db.bindable x)
         end;
  cbn [andb]; intros Hb; try discriminate Hb; clear Hb.

Ltac run_query :=
  cbn [mbind option_bind where_bool where_int];
  unfold Db.all, Db.filter_int, Db.filter_bool, Db.query;
  cbn [Db.params Db.selected app forallb].

(** What [get_all_strings] answers when the driver binds the integers
    given. *)
Lemma get_all_strings_respond (is_palindrome : option bool)
    (min_length max_length word_count : option Z)
    (contains_character : option str) (db : Db.table) :
  ServiceSpec.binds min_length max_length word_count = true →
  ∃ body,
    get_all_strings is_palindrome min_length max_length word_count
      contains_character db = Respond body
    ∧ Schemas.StringListResponse.data body
      = List.map Models.to_dict
          (List.filter (ServiceSpec.satisfies is_palindrome min_length max_length
                          word_count contains_character) db)
    ∧ Schemas.StringListResponse.count body
      = len (List.filter (ServiceSpec.satisfies is_palindrome min_length max_length
                            word_count contains_character) db)
    ∧ (Schemas.StringListResponse.filters_applied body = None ↔
       is_palindrome = None ∧ min_length = None ∧ max_length = None
       ∧ word_count = None ∧ contains_character = None).
Proof.
  intros Hb.
  destruct is_palindrome as [p|], min_length as [mn|], max_length as [mx|],
    word_count as [wc|], contains_character as [cc|];
    unfold get_all_strings; cbv beta iota zeta; run_query;
    split_binds Hb;
    (eexists; split; [reflexivity|]);
    cbn [Schemas.StringListResponse.data Schemas.StringListResponse.count
         Schemas.StringListResponse.filters_applied];
    (split; [apply (f_equal (List.map Models.to_dict)); same_rows|]);
    (split; [apply (f_equal len); same_rows|]);
    lazymatch goal with
    | |- context [bool_decide (∅ = ∅)] =>
        rewrite bool_decide_eq_true_2 by reflexivity
    | |- context [bool_decide _] =>
        rewrite bool_decide_eq_false_2 by apply insert_non_empty
    | |- _ => idtac
    end;
    (split; [intros Hx | intros (? & ? & ? & ? & ?)]);
    first [discriminate | repeat split; reflexivity].
Qed.


Lemma filter_set_typed (f : gmap string NlpParser.value) :
  Spec.is_filter_set f →
  (∀ v, f !! "is_palindrome" = Some v → ∃ b, v = NlpParser.VBool b)
  ∧ (∀ v, f !! "min_length" = Some v → ∃ n, v = NlpParser.VInt n)
  ∧ (∀ v, f !! "max_length" = Some v → ∃ n, v = NlpParser.VInt n)
  ∧ (∀ v, f !! "word_count" = Some v → ∃ n, v = NlpParser.VInt n)
  ∧ (∀ v, f !! "contains_character" = Some v → ∃ s, v = NlpParser.VStr s).
Proof.
  intros Hf.
  repeat split; intros v Hv; specialize (Hf _ _ Hv); simpl in Hf;
    destruct v as [n|b|s]; eauto;
    apply bool_decide_eq_true in Hf;
    try (destruct Hf as [Hf|[Hf|Hf]]; discriminate Hf);
    try discriminate Hf; destruct Hf as [Hf _]; discriminate Hf.
Qed.

Lemma validate_filter_set (f : gmap string NlpParser.value) :
  Spec.is_filter_set f →
  NlpParser.validate_parsed_filters f =
  Ok (match ServiceSpec.int_of (f !! "min_length"),
            ServiceSpec.int_of (f !! "max_length") with
      | Some lo, Some hi =>
          if hi <? lo then Some NlpParser.conflict_message else None
      | _, _ => None
      end).
Proof.
  intros Hf. destruct (filter_set_typed f Hf) as (_ & Hmn & Hmx & _).
  unfold NlpParser.validate_parsed_filters.
  destruct (f !! "min_length") as [v|]; [destruct (Hmn v eq_refl) as [lo ->]|done].
  destruct (f !! "max_length") as [v|]; [destruct (Hmx v eq_refl) as [hi ->]|done].
  simpl. by destruct (hi <? lo).
Qed.

(** What [filter_by_natural_language] answers once the filters are
    parsed and free of conflict, and the driver binds the parsed
    integers. *)
Lemma filter_by_natural_language_respond (query : str) (db : Db.table) :
  let f := NlpParser.parse_natural_language_query query in
  let rows :=
    List.filter (ServiceSpec.satisfies
                   (ServiceSpec.bool_of (f !! "is_palindrome"))
                   (ServiceSpec.int_of (f !! "min_length"))
                   (ServiceSpec.int_of (f !! "max_length"))
                   (ServiceSpec.int_of (f !! "word_count"))
                   (ServiceSpec.str_of (f !! "contains_character"))) db in
  Spec.overlong_numeral (PyStr.lower query) = false →
  f ≠ ∅ → NlpParser.validate_parsed_filters f = Ok None →
  ServiceSpec.binds (ServiceSpec.int_of (f !! "min_length"))
    (ServiceSpec.int_of (f !! "max_length"))
    (ServiceSpec.int_of (f !! "word_count")) = true →
  filter_by_natural_language query db
  = Respond {| Schemas.NaturalLanguageResponse.data := List.map Models.to_dict rows;
               Schemas.NaturalLanguageResponse.count := len rows;
               Schemas.NaturalLanguageResponse.original := query;
               Schemas.NaturalLanguageResponse.parsed_filters := f |}.
Proof.
  intros f rows Hov Hne Hval Hb. unfold filter_by_natural_language.
  rewrite parse_call_characterised, Hov. fold f.
  rewrite (bool_decide_eq_false_2 _ Hne), Hval. cbv zeta. subst rows.
  pose proof (parse_is_filter_set query) as Hf. fold f in Hf.
  destruct (filter_set_typed f Hf) as (Hp & Hmn & Hmx & Hwc & Hcc).
  clearbody f.
  destruct (f !! "is_palindrome") as [v|]; [destruct (Hp v eq_refl) as [p ->]|];
  (destruct (f !! "min_length") as [v|]; [destruct (Hmn v eq_refl) as [mn ->]|]);
  (destruct (f !! "max_length") as [v|]; [destruct (Hmx v eq_refl) as [mx ->]|]);
  (destruct (f !! "word_count") as [v|]; [destruct (Hwc v eq_refl) as [wc ->]|]);
  (destruct (f !! "contains_character") as [v|]; [destruct (Hcc v eq_refl) as [cc ->]|]);
  run_query; split_binds Hb;
  cbn [ServiceSpec.bool_of ServiceSpec.int_of ServiceSpec.str_of];
  lazymatch goal with
  | |- Respond {| Schemas.NaturalLanguageResponse.data := List.map _ ?n;
                  Schemas.NaturalLanguageResponse.count := _;
                  Schemas.NaturalLanguageResponse.original := _;
                  Schemas.NaturalLanguageResponse.parsed_filters := _ |}
       = Respond {| Schemas.NaturalLanguageResponse.data := List.map _ ?m;
                    Schemas.NaturalLanguageResponse.count := _;
                    Schemas.NaturalLanguageResponse.original := _;
                    Schemas.NaturalLanguageResponse.parsed_filters := _ |} =>
      assert (n = m) as Hnm by same_rows;
      exact (f_equal
               (λ rows,
                  Respond {| Schemas.NaturalLanguageResponse.data :=
                               List.map Models.to_dict rows;
                             Schemas.NaturalLanguageResponse.count := len rows;
                             Schemas.NaturalLanguageResponse.original := query;
                             Schemas.NaturalLanguageResponse.parsed_filters := f |})
               Hnm)
  end.
Qed.

(** What it answers when the driver refuses one of them. *)
Lemma filter_by_natural_language_unbound (query : str) (db : Db.table) :
  let f := NlpParser.parse_natural_language_query query in
  Spec.overlong_numeral (PyStr.lower query) = false →
  f ≠ ∅ → NlpParser.validate_parsed_filters f = Ok None →
  ServiceSpec.binds (ServiceSpec.int_of (f !! "min_length"))
    (ServiceSpec.int_of (f !! "max_length"))
    (ServiceSpec.int_of (f !! "word_count")) = false →
  filter_by_natural_language query db = Abort (bad_request QueryError).
Proof.
  intros f Hov Hne Hval Hb. unfold filter_by_natural_language.
  rewrite parse_call_characterised, Hov. fold f.
  rewrite (bool_decide_eq_false_2 _ Hne), Hval. cbv zeta.
  pose proof (parse_is_filter_set query) as Hf. fold f in Hf.
  destruct (filter_set_typed f Hf) as (Hp & Hmn & Hmx & Hwc & Hcc).
  clearbody f.
  destruct (f !! "is_palindrome") as [v|]; [destruct (Hp v eq_refl) as [p ->]|];
  (destruct (f !! "min_length") as [v|]; [destruct (Hmn v eq_refl) as [mn ->]|]);
  (destruct (f !! "max_length") as [v|]; [destruct (Hmx v eq_refl) as [mx ->]|]);
  (destruct (f !! "word_count") as [v|]; [destruct (Hwc v eq_refl) as [wc ->]|]);
  run_query; split_binds Hb; reflexivity.
Qed.

(** The validator on a parsed dictionary: no conflict means [None]. *)
Lemma validate_without_conflict (f : gmap string NlpParser.value) :
  Spec.is_filter_set f →
  ¬ (∃ lo hi, f !! "min_length" = Some (NlpParser.VInt lo)
            ∧ f !! "max_length" = Some (NlpParser.VInt hi) ∧ lo > hi) →
  NlpParser.validate_parsed_filters f = Ok None.
Proof.
  intros Hf Hnc. rewrite (validate_filter_set f Hf).
  destruct (filter_set_typed f Hf) as (_ & Hmn & Hmx & _).
  destruct (f !! "min_length") as [v|] eqn:E1; [|done].
  destruct (Hmn v eq_refl) as [lo ->].
  destruct (f !! "max_length") as [v|] eqn:E2; [|done].
  destruct (Hmx v eq_refl) as [hi ->]. simpl.
  destruct (hi <? lo) eqn:Hlt; [|done].
  destruct Hnc. exists lo, hi. apply Z.ltb_lt in Hlt.
  repeat split; lia.
Qed.

Lemma conflict_message_cons :
  ∃ c rest, NlpParser.conflict_message = c :: rest.
Proof. by eexists _, _. Qed.


(** X25. [get_all_strings] does not check its bounds against each other:
    with [min_length] above [max_length], both integers the driver
    binds, it answers an empty list and a count of 0 instead of an
    error. *)
Theorem get_all_strings_with_crossed_bounds (is_palindrome : option bool)
    (lo hi : Z) (word_count : option Z) (contains_character : option str)
    (db : Db.table) :
  hi < lo →
  ServiceSpec.binds (Some lo) (Some hi) word_count = true →
  ∃ body,
    get_all_strings is_palindrome (Some lo) (Some hi) word_count
      contains_character db = Respond body
    ∧ Schemas.StringListResponse.data body = []
    ∧ Schemas.StringListResponse.count body = 0.
Proof.
  intros Hlt Hbind.
  destruct (get_all_strings_respond is_palindrome (Some lo) (Some hi)
              word_count contains_character db Hbind)
    as (body & Hb & Hd & Hc & _).
  exists body. split; [done|]. rewrite Hd, Hc.
  rewrite filter_none; [done|].
  intros row. unfold ServiceSpec.satisfies. simpl.
  destruct (lo <=? Models.length row) eqn:H1';
    [|by rewrite andb_false_r].
  destruct (Models.length row <=? hi) eqn:H2';
    [|by rewrite !andb_false_r].
  apply Z.leb_le in H1', H2'. lia.
Qed.

(** X26. [filter_by_natural_language] answers, in this order: 400 with
    the [ValueError] when a numeral of the query is too long for [int];
    400 when nothing was parsed; 422 when the parsed bounds conflict;
    400 with the driver's error when it cannot bind a parsed integer;
    and otherwise the stored rows that satisfy every parsed constraint,
    with their number, the query and the parsed dictionary. *)
Theorem filter_by_natural_language_outcomes (query : str) (db : Db.table) :
  let f := NlpParser.parse_natural_language_query query in
  let conflict :=
    ∃ lo hi, f !! "min_length" = Some (NlpParser.VInt lo)
           ∧ f !! "max_length" = Some (NlpParser.VInt hi) ∧ lo > hi in
  let bound :=
    ServiceSpec.binds (ServiceSpec.int_of (f !! "min_length"))
      (ServiceSpec.int_of (f !! "max_length"))
      (ServiceSpec.int_of (f !! "word_count")) in
  if Spec.overlong_numeral (PyStr.lower query)
  then
    filter_by_natural_language query db
    = Abort {| status_code := 400;
               detail_of :=
                 TextAndError (lit "Unable to parse natural language query: ")
                   (AnalyzerError ValueError) |}
  else
    (f = ∅ →
     filter_by_natural_language query db
     = Abort {| status_code := 400;
                detail_of := Text (lit "Unable to parse natural language query") |})
    ∧ (f ≠ ∅ → conflict →
       filter_by_natural_language query db
       = Abort {| status_code := 422;
                  detail_of :=
                    Text (lit "Query parsed but resulted in conflicting filters: "
                          ++ NlpParser.conflict_message) |})
    ∧ (f ≠ ∅ → ¬ conflict → bound = false →
       filter_by_natural_language query db
       = Abort {| status_code := 400;
                  detail_of :=
                    TextAndError (lit "Unable to parse natural language query: ")
                      QueryError |})
    ∧ (f ≠ ∅ → ¬ conflict → bound = true →
       ∃ body,
         filter_by_natural_language query db = Respond body
         ∧ Schemas.NaturalLanguageResponse.original body = query
         ∧ Schemas.NaturalLanguageResponse.parsed_filters body = f
         ∧ Schemas.NaturalLanguageResponse.data body
           = List.map Models.to_dict
               (List.filter (ServiceSpec.satisfies
                               (ServiceSpec.bool_of (f !! "is_palindrome"))
                               (ServiceSpec.int_of (f !! "min_length"))
                               (ServiceSpec.int_of (f !! "max_length"))
                               (ServiceSpec.int_of (f !! "word_count"))
                               (ServiceSpec.str_of (f !! "contains_character"))) db)
         ∧ Schemas.NaturalLanguageResponse.count body
           = len (Schemas.NaturalLanguageResponse.data body)).
Proof.
  intros f conflict bound.
  destruct (Spec.overlong_numeral (PyStr.lower query)) eqn:Hov.
  { unfold filter_by_natural_language.
    by rewrite parse_call_characterised, Hov. }
  pose proof (validate_filter_set f (parse_is_filter_set query)) as Hval.
  split; [|split; [|split]].
  - intros He. unfold filter_by_natural_language.
    rewrite parse_call_characterised, Hov. fold f.
    by rewrite (bool_decide_eq_true_2 _ He).
  - intros Hne (lo & hi & Hlo & Hhi & Hgt).
    rewrite Hlo, Hhi in Hval. simpl in Hval.
    rewrite (proj2 (Z.ltb_lt hi lo)) in Hval by lia.
    unfold filter_by_natural_language.
    rewrite parse_call_characterised, Hov. fold f.
    rewrite (bool_decide_eq_false_2 _ Hne), Hval.
    destruct conflict_message_cons as (c & rest & ->). done.
  - intros Hne Hnc Hb.
    apply filter_by_natural_language_unbound; try done.
    by apply validate_without_conflict; [apply parse_is_filter_set|].
  - intros Hne Hnc Hb.
    assert (NlpParser.validate_parsed_filters f = Ok None) as Hok
      by (by apply validate_without_conflict; [apply parse_is_filter_set|]).
    eexists. split; [by apply filter_by_natural_language_respond|].
    simpl. repeat split. unfold len. by rewrite length_map.
Qed.

(** X27. When [filter_by_natural_language] answers with rows, they are
    the rows, and the count is the count, that [get_all_strings] answers
    for the constraints read off the parsed dictionary. *)
Theorem natural_language_agrees_with_structured (query : str) (db : Db.table)
    (body : Schemas.NaturalLanguageResponse.t) :
  filter_by_natural_language query db = Respond body →
  let f := NlpParser.parse_natural_language_query query in
  ∃ body',
    get_all_strings
      (ServiceSpec.bool_of (f !! "is_palindrome"))
      (ServiceSpec.int_of (f !! "min_length"))
      (ServiceSpec.int_of (f !! "max_length"))
      (ServiceSpec.int_of (f !! "word_count"))
      (ServiceSpec.str_of (f !! "contains_character")) db = Respond body'
    ∧ Schemas.StringListResponse.data body'
      = Schemas.NaturalLanguageResponse.data body
    ∧ Schemas.StringListResponse.count body'
      = Schemas.NaturalLanguageResponse.count body.
Proof.
  intros Hb f.
  assert (Spec.overlong_numeral (PyStr.lower query) = false
          ∧ f ≠ ∅ ∧ NlpParser.validate_parsed_filters f = Ok None)
    as (Hov & Hne & Hok).
  { pose proof (validate_filter_set f (parse_is_filter_set query)) as Hval.
    unfold filter_by_natural_language in Hb.
    rewrite parse_call_characterised in Hb.
    destruct (Spec.overlong_numeral _); [done|]. fold f in Hb.
    split; [done|].
    destruct (bool_decide (f = ∅)) eqn:He; [done|].
    apply bool_decide_eq_false in He. split; [done|].
    rewrite Hval in Hb |- *.
    destruct (ServiceSpec.int_of (f !! "min_length")); [|done].
    destruct (ServiceSpec.int_of (f !! "max_length")); [|done].
    destruct (_ <? _); [|done].
    by destruct conflict_message_cons as (c & rest & Hc'); rewrite Hc' in Hb. }
  destruct (ServiceSpec.binds (ServiceSpec.int_of (f !! "min_length"))
              (ServiceSpec.int_of (f !! "max_length"))
              (ServiceSpec.int_of (f !! "word_count"))) eqn:Hbind.
  2: { by rewrite (filter_by_natural_language_unbound query db Hov Hne Hok Hbind)
         in Hb. }
  destruct (get_all_strings_respond
              (ServiceSpec.bool_of (f !! "is_palindrome"))
              (ServiceSpec.int_of (f !! "min_length"))
              (ServiceSpec.int_of (f !! "max_length"))
              (ServiceSpec.int_of (f !! "word_count"))
              (ServiceSpec.str_of (f !! "contains_character")) db Hbind)
    as (body' & Hb' & Hd & Hc & _).
  exists body'. split; [done|]. rewrite Hd, Hc.
  rewrite (filter_by_natural_language_respond query db Hov Hne Hok Hbind) in Hb.
  injection Hb as <-. done.
Qed.

(** X28. The route [/strings/{string_value}] is declared before
    [/strings/filter-by-natural-language], so the router never reaches
    [filter_by_natural_language]: a GET of that path is handled by
    [get_string] with the value "filter-by-natural-language", as is every
    GET of [/strings/] followed by one segment. *)
Theorem natural_language_route_is_shadowed :
  (∀ m path, dispatch m path ≠ Some FilterByNaturalLanguage)
  ∧ dispatch GET (lit "/strings/filter-by-natural-language")
    = Some (GetString (lit "filter-by-natural-language"))
  ∧ ∀ seg, segment seg = true →
      dispatch GET (lit "/strings/" ++ seg) = Some (GetString seg).
Proof.
  split; [|split; [by vm_compute|]].
  - intros m path. unfold dispatch, routes. destruct m; cbn [first_match method_eqb].
    + destruct (bool_decide (path = lit "/")); [done|].
      destruct (strings_param path) eqn:Hp; [done|]. cbn [fmap option_fmap option_map].
      destruct (bool_decide (path = lit "/strings")); [done|].
      destruct (bool_decide (path = lit "/strings/filter-by-natural-language")) eqn:Hq.
      { apply bool_decide_eq_true in Hq. subst path. by vm_compute in Hp. }
      by destruct (bool_decide (path = lit "/health")).
    + by destruct (bool_decide (path = lit "/strings")).
    + by destruct (strings_param path).
  - intros seg Hseg. unfold dispatch, routes. cbn [first_match method_eqb].
    rewrite bool_decide_eq_false_2 by (by destruct seg).
    unfold strings_param.
    assert (PyStr.startswith (lit "/strings/") (lit "/strings/" ++ seg) = true)
      as -> by (apply startswith_prefix; eauto).
    rewrite drop_app_length, Hseg. done.
Qed.

End FilterFacts.

(** * Instances of the further properties *)

Section MoreInstances.
Import Analyzer NlpParser Main.

Lemma analyze_string_fails_exactly_on_surrogates_witness :
  Forall (λ c, c ≤ 0x10FFFF)%N [97; 0xD800]%N
  ∧ (analyze_string (H := sample_unicode) [97; 0xD800]%N = Raise UnicodeEncodeError
     ↔ Exists (λ c, 0xD800 ≤ c ≤ 0xDFFF)%N [97; 0xD800]%N)
  ∧ ((∃ r, analyze_string (H := sample_unicode) [97; 0xD800]%N = Ok r)
     ↔ Forall (λ c, c < 0xD800 ∨ 0xDFFF < c)%N [97; 0xD800]%N).
Proof.
  assert (Forall (λ c, c ≤ 0x10FFFF)%N [97; 0xD800]%N) as Hr
    by (repeat constructor; lia).
  exact (conj Hr (analyze_string_fails_exactly_on_surrogates
                    (H := sample_unicode) _ Hr)).
Defined.

Lemma sha256_hash_is_64_lowercase_hex_witness :
  ∃ r, analyze_string (H := sample_unicode) (lit "abc") = Ok r
     ∧ List.length (sha256_hash r) = 64%nat
     ∧ Forall (λ c, (48 ≤ c ≤ 57 ∨ 97 ≤ c ≤ 102)%N) (sha256_hash r).
Proof.
  destruct (analyze_string_returns (H := sample_unicode) (lit "abc")
              (ascii_encodable "abc" eq_refl)) as (r & Hr & _).
  exists r. split; [exact Hr|].
  exact (sha256_hash_is_64_lowercase_hex (H := sample_unicode) _ r Hr).
Defined.

Lemma frequency_map_identifies_anagrams_witness :
  ∃ r1 r2,
    analyze_string (H := sample_unicode) (lit "listen") = Ok r1
    ∧ analyze_string (H := sample_unicode) (lit "silent") = Ok r2
    ∧ (character_frequency_map r1 = character_frequency_map r2
       ↔ lit "listen" ≡ₚ lit "silent")
    ∧ (lit "listen" ≡ₚ lit "silent" →
       length r1 = length r2 ∧ unique_characters r1 = unique_characters r2).
Proof.
  destruct (analyze_string_returns (H := sample_unicode) (lit "listen")
              (ascii_encodable "listen" eq_refl)) as (r1 & Hr1 & _).
  destruct (analyze_string_returns (H := sample_unicode) (lit "silent")
              (ascii_encodable "silent" eq_refl)) as (r2 & Hr2 & _).
  exists r1, r2. split; [exact Hr1|]. split; [exact Hr2|].
  exact (frequency_map_identifies_anagrams (H := sample_unicode) _ _ r1 r2 Hr1 Hr2).
Defined.

Lemma palindrome_of_reversed_ascii_witness :
  forallb PyStr.is_ascii (lit "Race Car") = true
  ∧ ∃ r r' r'',
      analyze_string (H := sample_unicode) (lit "Race Car") = Ok r
      ∧ analyze_string (H := sample_unicode) (rev (lit "Race Car")) = Ok r'
      ∧ analyze_string (H := sample_unicode) (lit "Race Car" ++ rev (lit "Race Car"))
        = Ok r''
      ∧ is_palindrome r' = is_palindrome r
      ∧ is_palindrome r'' = true.
Proof.
  split; [reflexivity|].
  exact (palindrome_of_reversed_ascii (H := sample_unicode) (lit "Race Car") eq_refl).
Defined.

Lemma analysis_bounds_witness :
  ∃ r, analyze_string (H := sample_unicode) (lit "a bb") = Ok r
     ∧ 0 ≤ unique_characters r ≤ length r
     ∧ 0 ≤ word_count r ∧ 2 * word_count r ≤ length r + 1
     ∧ (unique_characters r = 0 ↔ lit "a bb" = [])
     ∧ ∀ c n, character_frequency_map r !! c = Some n → 1 ≤ n ≤ length r.
Proof.
  destruct (analyze_string_returns (H := sample_unicode) (lit "a bb")
              (ascii_encodable "a bb" eq_refl)) as (r & Hr & _).
  exists r. split; [exact Hr|].
  exact (analysis_bounds (H := sample_unicode) _ r Hr).
Defined.

Lemma word_count_zero_iff_blank_witness :
  ∃ r, analyze_string (H := sample_unicode) (lit "   ") = Ok r
     ∧ (word_count r = 0 ↔ Forall (λ c, PyStr.isspace c = true) (lit "   ")).
Proof.
  destruct (analyze_string_returns (H := sample_unicode) (lit "   ")
              (ascii_encodable "   " eq_refl)) as (r & Hr & _).
  exists r. split; [exact Hr|].
  exact (word_count_zero_iff_blank (H := sample_unicode) _ r Hr).
Defined.

Lemma analysis_of_concatenation_witness :
  ∃ r1 r2,
    analyze_string (H := sample_unicode) (lit "ab") = Ok r1
    ∧ analyze_string (H := sample_unicode) (lit "bc") = Ok r2
    ∧ ∃ r, analyze_string (H := sample_unicode) (lit "ab" ++ lit "bc") = Ok r
        ∧ length r = length r1 + length r2
        ∧ (∀ c, default 0 (character_frequency_map r !! c)
                = default 0 (character_frequency_map r1 !! c)
                  + default 0 (character_frequency_map r2 !! c))
        ∧ unique_characters r ≤ unique_characters r1 + unique_characters r2.
Proof.
  destruct (analyze_string_returns (H := sample_unicode) (lit "ab")
              (ascii_encodable "ab" eq_refl)) as (r1 & Hr1 & _).
  destruct (analyze_string_returns (H := sample_unicode) (lit "bc")
              (ascii_encodable "bc" eq_refl)) as (r2 & Hr2 & _).
  exists r1, r2. split; [exact Hr1|]. split; [exact Hr2|].
  exact (analysis_of_concatenation (H := sample_unicode) _ _ r1 r2 Hr1 Hr2).
Defined.

Lemma word_count_of_joined_witness :
  PyStr.isspace 9 = true
  ∧ ∃ r1 r2,
      analyze_string (H := sample_unicode) (lit "hello world") = Ok r1
      ∧ analyze_string (H := sample_unicode) (lit "again") = Ok r2
      ∧ ∃ r, analyze_string (H := sample_unicode)
               (lit "hello world" ++ 9%N :: lit "again") = Ok r
          ∧ word_count r = word_count r1 + word_count r2.
Proof.
  split; [reflexivity|].
  destruct (analyze_string_returns (H := sample_unicode) (lit "hello world")
              (ascii_encodable "hello world" eq_refl)) as (r1 & Hr1 & _).
  destruct (analyze_string_returns (H := sample_unicode) (lit "again")
              (ascii_encodable "again" eq_refl)) as (r2 & Hr2 & _).
  exists r1, r2. split; [exact Hr1|]. split; [exact Hr2|].
  exact (word_count_of_joined (H := sample_unicode) _ _ 9%N r1 r2 eq_refl Hr1 Hr2).
Defined.

Lemma parsed_filters_shape_witness :
  parse_natural_language_query (H := sample_unicode)
    (lit "strings containing the letter z") !! "contains_character"
  = Some (VStr (lit "z"))
  ∧ (("contains_character" = "word_count"
      ∧ (VStr (lit "z") = VInt 1 ∨ VStr (lit "z") = VInt 2 ∨ VStr (lit "z") = VInt 3))
     ∨ ("contains_character" = "is_palindrome" ∧ VStr (lit "z") = VBool true)
     ∨ ("contains_character" = "min_length" ∧ ∃ n, VStr (lit "z") = VInt n)
     ∨ ("contains_character" = "max_length" ∧ ∃ n, VStr (lit "z") = VInt n)
     ∨ ("contains_character" = "contains_character"
        ∧ ∃ c, VStr (lit "z") = VStr [c] ∧ (97 ≤ c ≤ 122)%N)).
Proof.
  assert (parse_natural_language_query (H := sample_unicode)
            (lit "strings containing the letter z") !! "contains_character"
          = Some (VStr (lit "z"))) as Hk by (vm_compute; reflexivity).
  exact (conj Hk (parsed_filters_shape (H := sample_unicode) _ _ _ Hk)).
Defined.

Lemma ascii_query_bounds_floor_witness :
  forallb PyStr.is_ascii (lit "strings shorter than 0 characters") = true
  ∧ (∀ n, parse_natural_language_query (H := sample_unicode)
            (lit "strings shorter than 0 characters") !! "min_length"
          = Some (VInt n) → 0 ≤ n)
  ∧ (∀ n, parse_natural_language_query (H := sample_unicode)
            (lit "strings shorter than 0 characters") !! "max_length"
          = Some (VInt n) → -1 ≤ n).
Proof.
  split; [reflexivity|].
  exact (ascii_query_bounds_floor (H := sample_unicode)
           (lit "strings shorter than 0 characters") eq_refl).
Defined.

Lemma accepted_value_has_a_word_witness :
  Schemas.value_must_not_be_empty (lit " hi ") = Schemas.Accept (lit " hi ")
  ∧ ∃ r, analyze_string (H := sample_unicode) (lit " hi ") = Ok r
       ∧ 1 ≤ word_count r ∧ 1 ≤ length r ∧ 1 ≤ unique_characters r.
Proof.
  split; [reflexivity|].
  destruct (analyze_string_returns (H := sample_unicode) (lit " hi ")
              (ascii_encodable " hi " eq_refl)) as (r & Hr & _).
  exists r. split; [exact Hr|].
  exact (accepted_value_has_a_word (H := sample_unicode) (lit " hi ") _ r eq_refl Hr).
Defined.

Lemma create_then_get_witness :
  ∃ body db',
    create_string (H := sample_unicode) (H0 := sample_clock) tt (lit "abc") []
    = (Respond body, db')
    ∧ get_string (H := sample_clock) (lit "abc") db' = Respond body
    ∧ (∀ now', ∃ e, create_string (H := sample_unicode) (H0 := sample_clock)
                      now' (lit "abc") db' = (Abort e, db')
                    ∧ status_code e = 409)
    ∧ (∀ v', v' ≠ lit "abc" →
         get_string (H := sample_clock) v' db' = get_string (H := sample_clock) v' [])
    ∧ ∃ p, analyze_string (H := sample_unicode) (lit "abc") = Ok p
         ∧ Schemas.StringResponse.properties body = p
         ∧ Schemas.StringResponse.id body = sha256_hash p
         ∧ Schemas.StringResponse.value body = lit "abc".
Proof.
  destruct (create_string (H := sample_unicode) (H0 := sample_clock) tt (lit "abc") [])
    as [[body|e] db'] eqn:Hc; [|by vm_compute in Hc].
  exists body, db'. split; [reflexivity|].
  exact (create_then_get (H := sample_unicode) (H0 := sample_clock)
           tt (lit "abc") [] db' body Hc).
Defined.

Lemma create_string_unencodable_is_500_witness :
  ¬ PyStr.encodable [97; 0xD800]%N
  ∧ ([97; 0xD800]%N ∉ List.map (Models.value (H := sample_clock)) [])
  ∧ create_string (H := sample_unicode) (H0 := sample_clock) tt [97; 0xD800]%N []
    = (Abort {| status_code := 500;
                detail_of := TextAndError (lit "Internal server error: ")
                               (AnalyzerError UnicodeEncodeError) |},
       [])
  ∧ (Exists (λ c, PyStr.isspace c = false) [97; 0xD800]%N →
     Schemas.value_must_not_be_empty [97; 0xD800]%N
     = Schemas.Accept [97; 0xD800]%N).
Proof.
  assert (¬ PyStr.encodable [97; 0xD800]%N) as He.
  { intros Hs. apply Forall_cons in Hs as [_ Hs].
    apply Forall_cons in Hs as [[x Hx] _]. by vm_compute in Hx. }
  assert ([97; 0xD800]%N ∉ List.map (Models.value (H := sample_clock)) []) as Hv
    by apply not_elem_of_nil.
  exact (conj He (conj Hv (create_string_unencodable_is_500
                             (H := sample_unicode) (H0 := sample_clock)
                             tt _ [] He Hv))).
Defined.

Lemma delete_string_behaviour_witness :
  NoDup (List.map (Models.value (H := sample_clock))
           (create_string (H := sample_unicode) (H0 := sample_clock)
              tt (lit "abc") []).2)
  ∧ NoDup (List.map (Models.id (H := sample_clock))
             (create_string (H := sample_unicode) (H0 := sample_clock)
                tt (lit "abc") []).2)
  ∧ ∃ db',
      delete_string (lit "abc")
        (create_string (H := sample_unicode) (H0 := sample_clock)
           tt (lit "abc") []).2 = (Respond (), db')
      ∧ get_string (lit "abc") db'
        = Abort {| status_code := 404;
                   detail_of := Text (lit "String does not exist in the system") |}.
Proof.
  destruct (create_string_consistent (H := sample_unicode) (H0 := sample_clock)
              tt (lit "abc") [] (empty_table_consistent (H0 := sample_clock)))
    as (Hv & Hi & _).
  split; [exact Hv|]. split; [exact Hi|].
  destruct (proj2 (delete_string_behaviour (H0 := sample_clock)
                     (lit "abc") _ Hv Hi)) as (db' & Hd & Hg & _).
  { vm_compute. apply list_elem_of_here. }
  exists db'. split; [exact Hd|exact Hg].
Defined.

Lemma get_string_returns_the_analysis_witness :
  ServiceSpec.consistent (H := sample_unicode) (H0 := sample_clock)
    (create_string (H := sample_unicode) (H0 := sample_clock) tt (lit "abc") []).2
  ∧ ∃ body,
      get_string (lit "abc")
        (create_string (H := sample_unicode) (H0 := sample_clock)
           tt (lit "abc") []).2 = Respond body
      ∧ ∃ p, analyze_string (H := sample_unicode) (lit "abc") = Ok p
           ∧ Schemas.StringResponse.properties body = p
           ∧ Schemas.StringResponse.id body = sha256_hash p
           ∧ Schemas.StringResponse.value body = lit "abc".
Proof.
  pose proof (create_string_consistent (H := sample_unicode) (H0 := sample_clock)
                tt (lit "abc") [] (empty_table_consistent (H0 := sample_clock)))
    as Hc.
  split; [exact Hc|].
  destruct (get_string (lit "abc")
              (create_string (H := sample_unicode) (H0 := sample_clock)
                 tt (lit "abc") []).2) as [body|e] eqn:Hg;
    [|by vm_compute in Hg].
  exists body. split; [reflexivity|].
  exact (get_string_returns_the_analysis (H := sample_unicode) (H0 := sample_clock)
           (lit "abc") _ body Hc Hg).
Defined.

Lemma get_all_strings_with_crossed_bounds_witness :
  5 < 20
  ∧ ServiceSpec.binds (H := sqlite_driver) (Some 20) (Some 5) None = true
  ∧ ∃ body,
      get_all_strings (H := sample_clock) (H0 := sqlite_driver)
        None (Some 20) (Some 5) None None
        (create_string (H := sample_unicode) (H0 := sample_clock)
           tt (lit "abc") []).2 = Respond body
      ∧ Schemas.StringListResponse.data body = []
      ∧ Schemas.StringListResponse.count body = 0.
Proof.
  assert (5 < 20) as Hlt by lia.
  assert (ServiceSpec.binds (H := sqlite_driver) (Some 20) (Some 5) None = true)
    as Hb by reflexivity.
  split; [exact Hlt|]. split; [exact Hb|].
  exact (get_all_strings_with_crossed_bounds (H1 := sample_clock)
           (H2 := sqlite_driver) None 20 5 None None _ Hlt Hb).
Defined.

Lemma natural_language_agrees_with_structured_witness :
  ∃ body,
    filter_by_natural_language (H := sample_unicode) (H0 := default_interpreter)
      (H1 := sample_clock) (H2 := sqlite_driver)
      (lit "palindromic strings") [] = Respond body
    ∧ ∃ body',
        get_all_strings (H := sample_clock) (H0 := sqlite_driver)
          (ServiceSpec.bool_of
             (parse_natural_language_query (H := sample_unicode)
                (lit "palindromic strings") !! "is_palindrome"))
          (ServiceSpec.int_of
             (parse_natural_language_query (H := sample_unicode)
                (lit "palindromic strings") !! "min_length"))
          (ServiceSpec.int_of
             (parse_natural_language_query (H := sample_unicode)
                (lit "palindromic strings") !! "max_length"))
          (ServiceSpec.int_of
             (parse_natural_language_query (H := sample_unicode)
                (lit "palindromic strings") !! "word_count"))
          (ServiceSpec.str_of
             (parse_natural_language_query (H := sample_unicode)
                (lit "palindromic strings") !! "contains_character"))
          [] = Respond body'
        ∧ Schemas.StringListResponse.data body'
          = Schemas.NaturalLanguageResponse.data body
        ∧ Schemas.StringListResponse.count body'
          = Schemas.NaturalLanguageResponse.count body.
Proof.
  destruct (filter_by_natural_language (H := sample_unicode)
              (H0 := default_interpreter) (H1 := sample_clock)
              (H2 := sqlite_driver)
              (lit "palindromic strings") []) as [body|e] eqn:Hb;
    [|by vm_compute in Hb].
  exists body. split; [reflexivity|].
  exact (natural_language_agrees_with_structured (H := sample_unicode)
           (H0 := default_interpreter) (H1 := sample_clock)
           (H2 := sqlite_driver) _ [] body Hb).
Defined.

(** The [except] branches at work, with SQLite's driver and the default
    digit limit: an integer of 64 bits and more is refused by the
    driver, a numeral of 4301 digits by [int]. *)
Example get_all_strings_min_length_2_63 :
  get_all_strings (H := sample_clock) (H0 := sqlite_driver)
    None (Some (2 ^ 63)) None None None []
  = Abort {| status_code := 400;
             detail_of := TextAndError (lit "Invalid query parameters: ")
                            QueryError |}
  ∧ ∃ body,
      get_all_strings (H := sample_clock) (H0 := sqlite_driver)
        None (Some (2 ^ 63 - 1)) None None None [] = Respond body.
Proof. split; [vm_compute; reflexivity|]. eexists. vm_compute. reflexivity. Qed.

Example natural_language_at_least_2_63 :
  parse_natural_language_query_call (H := sample_unicode)
    (H0 := default_interpreter) (lit "at least 9223372036854775808")
  = Ok {[ "min_length" := VInt (2 ^ 63) ]}
  ∧ filter_by_natural_language (H := sample_unicode)
      (H0 := default_interpreter) (H1 := sample_clock) (H2 := sqlite_driver)
      (lit "at least 9223372036854775808") []
    = Abort {| status_code := 400;
               detail_of :=
                 TextAndError (lit "Unable to parse natural language query: ")
                   QueryError |}.
Proof. split; vm_compute; reflexivity. Qed.

Example natural_language_numeral_of_4301_digits :
  parse_natural_language_query_call (H := sample_unicode)
    (H0 := default_interpreter) (lit "at least " ++ replicate 4300 49%N)
  = Ok {[ "min_length" := VInt ((10 ^ 4300 - 1) / 9) ]}
  ∧ parse_natural_language_query_call (H := sample_unicode)
      (H0 := default_interpreter) (lit "at least " ++ replicate 4301 49%N)
    = Raise ValueError
  ∧ filter_by_natural_language (H := sample_unicode)
      (H0 := default_interpreter) (H1 := sample_clock) (H2 := sqlite_driver)
      (lit "at least " ++ replicate 4301 49%N) []
    = Abort {| status_code := 400;
               detail_of :=
                 TextAndError (lit "Unable to parse natural language query: ")
                   (AnalyzerError ValueError) |}.
Proof. split; [|split]; vm_compute; reflexivity. Qed.

End MoreInstances.
